(** * soccerstan: the data-preparation and model-fitting pipeline

    A shallow embedding of [src/soccerstan.py]: the categorical encoder
    [stan_map], the CSV normaliser [read_data] and the cached model fit
    [fit_model], followed by the properties of the specification. *)

From Stdlib Require Import ZArith String Ascii List Lia.
From stdpp Require Import base option list sorting gmap strings.

Local Open Scope Z_scope.
Local Open Scope string_scope.
Local Open Scope list_scope.

(** ** Python values and exceptions *)

(** The exceptions that the modelled code can raise.  [Raised n] stands for
    any exception class [n] coming out of an external library (Stan,
    joblib). *)
Inductive exn : Type :=
| ValueError
| OverflowError
| KeyError
| FileNotFoundError
| Raised (class_name : string).

Global Instance exn_eq_dec : EqDecision exn.
Proof. solve_decision. Defined.

(** A computation that returns or raises. *)
Inductive result (A : Type) : Type :=
| Ok (a : A)
| Err (e : exn).
Arguments Ok {A} a.
Arguments Err {A} e.

Definition rbind {A B} (r : result A) (k : A -> result B) : result B :=
  match r with
  | Ok a => k a
  | Err e => Err e
  end.

(** [[f(x) for x in l]]: the first exception, in list order, escapes. *)
Fixpoint rmap {A B} (f : A -> result B) (l : list A) : result (list B) :=
  match l with
  | [] => Ok []
  | x :: l' => rbind (f x) (fun y => rbind (rmap f l') (fun ys => Ok (y :: ys)))
  end.

(** ** Python dictionaries

    A [dict] keeps its keys in insertion order; assigning to a key that is
    present replaces its value in place. *)
Section Dict.
Context {K V : Type} `{EqDecision K}.

Definition dict : Type := list (K * V).

Fixpoint dict_get (k : K) (d : dict) : option V :=
  match d with
  | [] => None
  | (k', v) :: d' => if decide (k = k') then Some v else dict_get k d'
  end.

Fixpoint dict_set (k : K) (v : V) (d : dict) : dict :=
  match d with
  | [] => [(k, v)]
  | (k', v') :: d' =>
      if decide (k = k') then (k, v) :: d' else (k', v') :: dict_set k v d'
  end.

Definition dict_keys (d : dict) : list K := map fst d.
Definition dict_values (d : dict) : list V := map snd d.
Definition dict_len (d : dict) : Z := Z.of_nat (length d).
End Dict.
Arguments dict : clear implicits.

(** ** [stan_map] *)

(** [np.unique]: sort, then keep each element that differs from its
    predecessor.  Strings are ordered lexicographically, character code by
    character code. *)
Fixpoint drop_repeats (prev : string) (l : list string) : list string :=
  match l with
  | [] => []
  | x :: l' =>
      if decide (x = prev) then drop_repeats x l' else x :: drop_repeats x l'
  end.

Definition np_unique (vector : list string) : list string :=
  match merge_sort String.le vector with
  | [] => []
  | x :: l => x :: drop_repeats x l
  end.

(** [enumerate(l, start)] *)
Fixpoint enumerate {A} (l : list A) (start : Z) : list (Z * A) :=
  match l with
  | [] => []
  | x :: l' => (start, x) :: enumerate l' (start + 1)
  end.

(** [{item: id_ for id_, item in enumerate(unique_items, start=1)}] *)
Definition stan_map (vector : list string) : dict string Z :=
  let unique_items := np_unique vector in
  foldl (fun d p => dict_set (snd p) (fst p) d) [] (enumerate unique_items 1).

(** ** Table cells and [int()] *)

(** What a cell of a goals column parsed by [pd.read_csv] can hold: the
    missing marker, an infinity, an integer, a finite float (as the
    fraction [num / den]) or, in a column that did not parse as numbers,
    the text of the field. *)
Inductive cell : Type :=
| CNaN
| CInf (negative : bool)
| CInt (z : Z)
| CFloat (num : Z) (den : positive)
| CStr (s : string).

Global Instance cell_eq_dec : EqDecision cell.
Proof. solve_decision. Defined.

Definition pd_isnull (c : cell) : bool :=
  match c with
  | CNaN => true
  | _ => false
  end.

(** [int(s)] for a string: optional blanks, an optional sign, decimal
    digits that single underscores may separate, optional blanks.  Only
    ASCII blanks and digits are modelled, and no limit on the number of
    digits. *)
Definition is_blank (c : ascii) : bool :=
  let n := N_of_ascii c in
  (((9 <=? n) && (n <=? 13)) || (n =? 32))%N.

Definition digit_val (c : ascii) : option Z :=
  let n := N_of_ascii c in
  if ((48 <=? n) && (n <=? 57))%N then Some (Z.of_N n - 48) else None.

Fixpoint lstrip (s : string) : string :=
  match s with
  | String c s' => if is_blank c then lstrip s' else s
  | EmptyString => EmptyString
  end.

Fixpoint all_blank (s : string) : bool :=
  match s with
  | String c s' => is_blank c && all_blank s'
  | EmptyString => true
  end.

Fixpoint int_digits (acc : Z) (s : string) : option Z :=
  match s with
  | EmptyString => Some acc
  | String c s' =>
      match digit_val c with
      | Some d => int_digits (10 * acc + d) s'
      | None =>
          if decide (c = "_"%char) then
            match s' with
            | String c' s'' =>
                match digit_val c' with
                | Some d => int_digits (10 * acc + d) s''
                | None => None
                end
            | EmptyString => None
            end
          else if all_blank s then Some acc else None
      end
  end.

Definition int_of_str (s : string) : option Z :=
  let s1 := lstrip s in
  let '(negative, s2) :=
    match s1 with
    | String c s' =>
        if decide (c = "-"%char) then (true, s')
        else if decide (c = "+"%char) then (false, s')
        else (false, s1)
    | EmptyString => (false, s1)
    end in
  match s2 with
  | String c s' =>
      match digit_val c with
      | Some d => (fun v => if negative then - v else v) <$> int_digits d s'
      | None => None
      end
  | EmptyString => None
  end.

(** [int(c)]: an integer is kept, a finite float is truncated toward zero,
    the missing marker and text that is not a number raise [ValueError],
    an infinity raises [OverflowError]. *)
Definition py_int (c : cell) : result Z :=
  match c with
  | CNaN => Err ValueError
  | CInf _ => Err OverflowError
  | CInt z => Ok z
  | CFloat num den => Ok (Z.quot num (Z.pos den))
  | CStr s =>
      match int_of_str s with
      | Some z => Ok z
      | None => Err ValueError
      end
  end.

(** ** [read_data] *)

(** A row of the table that [pd.read_csv(fname).rename(...)] yields. *)
Module Raw.
Record row : Type := Row {
  home_team : string;
  away_team : string;
  home_goals : cell;
  away_goals : cell
}.
End Raw.

(** A row of the frame that [read_data] returns. *)
Module Data.
Record row : Type := Row {
  home_team : string;
  away_team : string;
  home_goals : Z;
  away_goals : Z;
  home_team_id : cell;
  away_team_id : cell
}.
End Data.

(** [Series.replace(team_map)]: a value that is a key of the map becomes
    the key's value, any other value stays as it is. *)
Definition replace (team_map : dict string Z) (s : string) : cell :=
  match dict_get s team_map with
  | Some id_ => CInt id_
  | None => CStr s
  end.

(** The frame rebuilt from its columns. *)
Fixpoint frame (data : list Raw.row) (home_goals away_goals : list Z)
    (home_team_id away_team_id : list cell) : list Data.row :=
  match data, home_goals, away_goals, home_team_id, away_team_id with
  | r :: data', hg :: hgs, ag :: ags, hid :: hids, aid :: aids =>
      Data.Row (Raw.home_team r) (Raw.away_team r) hg ag hid aid
      :: frame data' hgs ags hids aids
  | _, _, _, _, _ => []
  end.

Definition played (r : Raw.row) : bool := negb (pd_isnull (Raw.home_goals r)).

Definition read_data (csv : list Raw.row)
    : result (list Data.row * dict string Z) :=
  let data := List.filter played csv in
  let team_map :=
    stan_map (map Raw.home_team data ++ map Raw.away_team data) in
  let home_team_id := map (fun r => replace team_map (Raw.home_team r)) data in
  let away_team_id := map (fun r => replace team_map (Raw.away_team r)) data in
  rbind (rmap py_int (map Raw.home_goals data)) (fun home_goals =>
  rbind (rmap py_int (map Raw.away_goals data)) (fun away_goals =>
  Ok (frame data home_goals away_goals home_team_id away_team_id, team_map))).

(** ** [fit_model] *)

(** Modelled from the spec: [models.SoccerModel] is not part of the
    sources; a model identity exposes its name (the cache key), the file
    holding its template, its scalar parameters and its team parameters. *)
Record SoccerModel : Type := {
  name : string;
  modelfile : string;
  parameters : list string;
  team_parameters : list string
}.

(** The dictionary handed to Stan. *)
Record model_data : Type := {
  n_teams : Z;
  n_games : Z;
  md_home_team : list cell;
  md_away_team : list cell;
  md_home_goals : list Z;
  md_away_goals : list Z
}.

Definition make_model_data (data : list Data.row) (team_map : dict string Z)
    : model_data :=
  {| n_teams := dict_len team_map;
     n_games := Z.of_nat (length data);
     md_home_team := map Data.home_team_id data;
     md_away_team := map Data.away_team_id data;
     md_home_goals := map Data.home_goals data;
     md_away_goals := map Data.away_goals data |}.

(** [range(n)] *)
Definition range (n : nat) : list Z := map Z.of_nat (seq 0 n).

(** [os.path.join(a, b)] *)
Fixpoint ends_with_slash (a : string) : bool :=
  match a with
  | EmptyString => false
  | String c EmptyString => bool_decide (c = "/"%char)
  | String _ a' => ends_with_slash a'
  end.

Definition os_path_join (a b : string) : string :=
  match b with
  | String "/"%char _ => b
  | _ =>
      if bool_decide (a = EmptyString) || ends_with_slash a then a +:+ b
      else a +:+ "/" +:+ b
  end.

Section Output.
(** The type of a posterior draw. *)
Context {num : Type}.

(** The draws of a parameter: a vector, or a matrix with one row per
    draw. *)
Inductive ndarray : Type :=
| Arr1 (xs : list num)
| Arr2 (ncols : nat) (rows : list (list num)).

Record DataFrame : Type := {
  columns : list cell;
  df_rows : list (list num)
}.

(** An entry of the output dictionary: what Stan extracted, or the frame
    that replaced it. *)
Inductive value : Type :=
| VArray (a : ndarray)
| VFrame (df : DataFrame).

(** [pd.DataFrame(v)]: the columns of an array are numbered from 0, a
    frame is copied. *)
Definition pd_DataFrame (v : value) : DataFrame :=
  match v with
  | VArray (Arr1 xs) =>
      {| columns := map CInt (range 1); df_rows := map (fun x => [x]) xs |}
  | VArray (Arr2 ncols rows) =>
      {| columns := map CInt (range ncols); df_rows := rows |}
  | VFrame df => df
  end.

(** [{v: k for k, v in team_map.items()}] *)
Definition make_reverse_map (team_map : dict string Z) : dict Z string :=
  foldl (fun d p => dict_set (snd p) (fst p) d) [] team_map.

(** [reverse_map[id_ + 1]]; adding 1 to a column label that is not a
    number raises [TypeError]. *)
Definition relabel (reverse_map : dict Z string) (id_ : cell)
    : result cell :=
  match id_ with
  | CInt i =>
      match dict_get (i + 1) reverse_map with
      | Some label => Ok (CStr label)
      | None => Err KeyError
      end
  | _ => Err (Raised "TypeError")
  end.

(** The body of the loop over [model.team_parameters]. *)
Definition tidy_param (reverse_map : dict Z string)
    (output : dict string value) (param : string)
    : result (dict string value) :=
  match dict_get param output with
  | None => Err KeyError
  | Some v =>
      let df := pd_DataFrame v in
      rbind (rmap (relabel reverse_map) (columns df)) (fun cols =>
      Ok (dict_set param (VFrame {| columns := cols; df_rows := df_rows df |})
            output))
  end.

Fixpoint tidy_loop (reverse_map : dict Z string) (params : list string)
    (output : dict string value) : result (dict string value) :=
  match params with
  | [] => Ok output
  | param :: params' =>
      rbind (tidy_param reverse_map output param)
            (tidy_loop reverse_map params')
  end.

(** Lines 83 to 87: the tidying of the output. *)
Definition tidy_output (team_map : dict string Z) (params : list string)
    (output : dict string value) : result (dict string value) :=
  let reverse_map := make_reverse_map team_map in
  tidy_loop reverse_map params output.
End Output.
Arguments ndarray : clear implicits.
Arguments DataFrame : clear implicits.
Arguments value : clear implicits.

Section FitModel.
(** A compiled Stan model, a fit, the sampling options, a draw. *)
Context {artifact fit kwargs num : Type}.

(** The collaborators: reading the template file, [stan.build],
    [stan_model.sample], [fit.extract], and the directory of the
    module, [os.path.dirname(__file__)]. *)
Variable open_read : string -> result string.
Variable stan_build : string -> model_data -> result artifact.
Variable stan_sample : artifact -> model_data -> kwargs -> result fit.
Variable extract : fit -> dict string (ndarray num).
Variable module_dir : string.

(** A file of the cache directory: a pickled model, or content that
    [joblib.load] rejects with an exception. *)
Inductive file : Type :=
| Pickled (a : artifact)
| Unreadable (e : exn).

(** What is observed of the cache and of the compiler. *)
Inductive event : Type :=
| EvLoad (path : string)
| EvBuild (program_code : string) (data : model_data)
| EvDump (path : string).

(** The files by path, and the events so far, oldest first. *)
Record world : Type := {
  fs : gmap string file;
  trace : list event
}.

Definition log (ev : event) (w : world) : world :=
  {| fs := fs w; trace := trace w ++ [ev] |}.

(** A computation on the world that returns or raises. *)
Definition M (A : Type) : Type := world -> result A * world.

Definition ret {A} (a : A) : M A := fun w => (Ok a, w).
Definition lift {A} (r : result A) : M A := fun w => (r, w).
Definition bind {A B} (m : M A) (k : A -> M B) : M B :=
  fun w =>
    match m w with
    | (Ok a, w') => k a w'
    | (Err e, w') => (Err e, w')
    end.

(** [try: m  except e: handler] *)
Definition try_except {A} (m : M A) (e : exn) (handler : M A) : M A :=
  fun w =>
    match m w with
    | (Err e', w') => if decide (e' = e) then handler w' else (Err e', w')
    | r => r
    end.

(** [joblib.load]: an absent file is a [FileNotFoundError]; the attempt
    is recorded whatever its outcome. *)
Definition joblib_load (path : string) : M artifact :=
  fun w =>
    (match fs w !! path with
     | None => Err FileNotFoundError
     | Some (Pickled a) => Ok a
     | Some (Unreadable e) => Err e
     end, log (EvLoad path) w).

(** The cache directory is taken to exist and to be writable: a dump
    always succeeds. *)
Definition joblib_dump (a : artifact) (path : string) : M unit :=
  fun w =>
    (Ok tt,
     {| fs := <[path := Pickled a]> (fs w);
        trace := trace w ++ [EvDump path] |}).

Definition build (program_code : string) (data : model_data) : M artifact :=
  fun w => (stan_build program_code data, log (EvBuild program_code data) w).

Definition cache_file (model_name : string) : string :=
  os_path_join module_dir ("../cache/" +:+ model_name +:+ ".pkl").

Local Notation "x <- m ;; k" := (bind m (fun x => k))
  (at level 100, m at next level, right associativity).

Definition fit_model (data : list Data.row) (team_map : dict string Z)
    (model : SoccerModel) (use_cache : bool) (kw : kwargs)
    : M (dict string (value num)) :=
  let model_data := make_model_data data team_map in
  stan_program <- lift (open_read (modelfile model)) ;;
  stan_model <-
    (if use_cache then
       let cache_file := cache_file (name model) in
       try_except (joblib_load cache_file) FileNotFoundError
         (stan_model <- build stan_program model_data ;;
          _ <- joblib_dump stan_model cache_file ;;
          ret stan_model)
     else build stan_program model_data) ;;
  fit <- lift (stan_sample stan_model model_data kw) ;;
  let output := map (fun p => (fst p, VArray (snd p))) (extract fit) in
  lift (tidy_output team_map (team_parameters model) output).
End FitModel.

(** ** Vocabulary of the statements *)

(** The strict lexicographic order on labels. *)
Definition str_lt : relation string := strict String.le.

(** The number of columns of an array once it is a frame. *)
Definition ncols_of {num} (a : ndarray num) : nat :=
  match a with
  | Arr1 _ => 1
  | Arr2 ncols _ => ncols
  end.

(** [df] is [v] with its columns relabelled through [rm]. *)
Definition relabelled {num} (rm : dict Z string) (v : value num)
    (df : DataFrame num) : Prop :=
  rmap (relabel rm) (columns (pd_DataFrame v)) = Ok (columns df) /\
  df_rows df = df_rows (pd_DataFrame v).

(** The returned row [m] is the raw row [r]: same labels, the goal counts
    of [r] as integers, and as identifiers the integers that [team_map]
    gives to the two labels. *)
Definition normalised (team_map : dict string Z) (r : Raw.row) (m : Data.row)
    : Prop :=
  Data.home_team m = Raw.home_team r /\
  Data.away_team m = Raw.away_team r /\
  py_int (Raw.home_goals r) = Ok (Data.home_goals m) /\
  py_int (Raw.away_goals r) = Ok (Data.away_goals m) /\
  (exists i, Data.home_team_id m = CInt i /\
             dict_get (Raw.home_team r) team_map = Some i /\
             i ∈ dict_values team_map) /\
  (exists j, Data.away_team_id m = CInt j /\
             dict_get (Raw.away_team r) team_map = Some j /\
             j ∈ dict_values team_map).

(** The arguments of a call of [fit_model] that uses the cache. *)
Record call {kwargs : Type} : Type := {
  c_data : list Data.row;
  c_team_map : dict string Z;
  c_model : SoccerModel;
  c_kw : kwargs
}.
Arguments call : clear implicits.

Section Calls.
Context {artifact fit kwargs num : Type}.
Variable open_read : string -> result string.
Variable stan_build : string -> model_data -> result artifact.
Variable stan_sample : artifact -> model_data -> kwargs -> result fit.
Variable extract : fit -> dict string (ndarray num).
Variable module_dir : string.

(** The world after a sequence of cached calls, whatever each returns. *)
Fixpoint run_calls (cs : list (call kwargs)) (w : world) : @world artifact :=
  match cs with
  | [] => w
  | c :: cs' =>
      run_calls cs'
        (snd (fit_model open_read stan_build stan_sample extract module_dir
                (c_data c) (c_team_map c) (c_model c) true (c_kw c) w))
  end.

(** The events of a call that finds the model [model_name] in the cache:
    one load, unless the template could not even be read. *)
Definition warm_events (model_name : string) (c : call kwargs) : list event :=
  match open_read (modelfile (c_model c)) with
  | Ok _ => [EvLoad (cache_file module_dir model_name)]
  | Err _ => []
  end.
End Calls.

(** ** Vocabulary of the further statements *)

(** [y] is a label strictly below [x]. *)
Definition below (x y : string) : Prop := String.ltb y x = true.

Global Instance below_dec x y : Decision (below x y).
Proof. unfold below. apply _. Defined.

(** The integer that [int] gives for a cell it accepts. *)
Definition goals_of (c : cell) : Z :=
  match py_int c with
  | Ok z => z
  | Err _ => 0
  end.

(** The returned row of a kept raw row whose goal counts [int] accepts. *)
Definition normal_row (team_map : dict string Z) (r : Raw.row) : Data.row :=
  Data.Row (Raw.home_team r) (Raw.away_team r)
    (goals_of (Raw.home_goals r)) (goals_of (Raw.away_goals r))
    (replace team_map (Raw.home_team r)) (replace team_map (Raw.away_team r)).

(** [int] accepts both goal counts of the row. *)
Definition coercible (r : Raw.row) : Prop :=
  (exists z, py_int (Raw.home_goals r) = Ok z) /\
  (exists z, py_int (Raw.away_goals r) = Ok z).

(** The labels of the kept rows, as [read_data] hands them to [stan_map]. *)
Definition played_labels (csv : list Raw.row) : list string :=
  map Raw.home_team (List.filter played csv)
  ++ map Raw.away_team (List.filter played csv).

(** The compilations among some events. *)
Definition is_build (ev : event) : bool :=
  match ev with
  | EvBuild _ _ => true
  | _ => false
  end.

(** The output dictionary as [fit_model] has it before the tidying. *)
Definition raw_output {num} (d : dict string (ndarray num))
    : dict string (value num) :=
  map (fun p => (fst p, VArray (snd p))) d.

Section FitModelParts.
Context {artifact fit kwargs num : Type}.
Variable stan_build : string -> model_data -> result artifact.
Variable stan_sample : artifact -> model_data -> kwargs -> result fit.
Variable extract : fit -> dict string (ndarray num).

(** Lines 68 to 77 of [fit_model]: how it gets its compiled model. *)
Definition load_or_build (program : string) (md : model_data) (path : string)
    (use_cache : bool) : M artifact :=
  if use_cache then
    try_except (joblib_load path) FileNotFoundError
      (bind (build stan_build program md) (fun stan_model =>
       bind (joblib_dump stan_model path) (fun _ => ret stan_model)))
  else build stan_build program md.

(** Lines 79 to 89 of [fit_model]: what it does with the compiled model. *)
Definition sample_and_tidy (a : artifact) (data : list Data.row)
    (team_map : dict string Z) (model : SoccerModel) (kw : kwargs)
    : result (dict string (value num)) :=
  rbind (stan_sample a (make_model_data data team_map) kw) (fun fit =>
  tidy_output team_map (team_parameters model) (raw_output (extract fit))).
End FitModelParts.

(** ** [plot_output] *)

Section Plot.
(** A draw, a matplotlib figure. *)
Context {num figure : Type}.

(** The two drawing functions only talk to matplotlib and numpy:
    [plot_parameter(data, title, 'dimgray')] and
    [plot_team_parameter(data, title, 0.05, 'dimgray')] return a figure or
    raise.  [real_dir] is [os.path.dirname(os.path.realpath(__file__))]. *)
Variable plot_parameter : value num -> string -> result figure.
Variable plot_team_parameter : value num -> string -> result figure.
Variable real_dir : string.

(** ['{0}/../figures/{1}-{2}.png'.format(real_dir, model.name, param)] *)
Definition figure_path (model_name param : string) : string :=
  real_dir +:+ "/../figures/" +:+ model_name +:+ "-" +:+ param +:+ ".png".

(** One loop of [plot_output].  [saved] lists the calls of [savefig],
    oldest first, each with its path and its figure; the figures
    directory is taken to exist. *)
Fixpoint plot_loop (plot : value num -> string -> result figure)
    (model : SoccerModel) (output : dict string (value num))
    (params : list string) (saved : list (string * figure))
    : result unit * list (string * figure) :=
  match params with
  | [] => (Ok tt, saved)
  | param :: params' =>
      match dict_get param output with
      | None => (Err KeyError, saved)
      | Some v =>
          match plot v param with
          | Err e => (Err e, saved)
          | Ok fig =>
              plot_loop plot model output params'
                (saved ++ [(figure_path (name model) param, fig)])
          end
      end
  end.

Definition plot_output (model : SoccerModel)
    (output : dict string (value num)) (saved : list (string * figure))
    : result unit * list (string * figure) :=
  match plot_loop plot_parameter model output (parameters model) saved with
  | (Ok _, saved') =>
      plot_loop plot_team_parameter model output (team_parameters model)
        saved'
  | r => r
  end.

(** [plot] draws the figures [figs], in order, of the parameters
    [params]. *)
Definition drawn (plot : value num -> string -> result figure)
    (output : dict string (value num)) (params : list string)
    (figs : list figure) : Prop :=
  Forall2 (fun param fig =>
             exists v, dict_get param output = Some v /\ plot v param = Ok fig)
    params figs.

(** The calls of [savefig] for the figures [figs] of [params]. *)
Definition saved_as (model : SoccerModel) (params : list string)
    (figs : list figure) : list (string * figure) :=
  zip (map (figure_path (name model)) params) figs.
End Plot.

(** ** Sample inputs *)

Module Sample.
(** A played fixture and a future one that brings a new label. *)
Definition season : list Raw.row :=
  [Raw.Row "A" "B" (CFloat 2 1) (CFloat 1 1); Raw.Row "B" "C" CNaN CNaN].

(** A goals column that did not parse as numbers. *)
Definition bad_score : list Raw.row :=
  [Raw.Row "A" "B" (CStr "2") (CStr "1"); Raw.Row "B" "A" (CStr "x") (CStr "0")].

(** A fixture with its away goals missing. *)
Definition half_score : list Raw.row :=
  [Raw.Row "A" "B" (CFloat 2 1) CNaN].

Definition model : SoccerModel :=
  {| name := "karlis-ntzoufras";
     modelfile := "stan/karlis-ntzoufras.stan";
     parameters := ["home_advantage"];
     team_parameters := ["attack"] |}.

Definition dir : string := "/srv/soccerstan/src".
Definition pkl : string := "/srv/soccerstan/src/../cache/karlis-ntzoufras.pkl".

(** Collaborators: a compiled model is the text of its program, a fit is
    the model it came from, every draw is an integer. *)
Definition open_read (path : string) : result string :=
  if decide (path = "stan/karlis-ntzoufras.stan") then Ok "parameters {}"
  else Err FileNotFoundError.
Definition stan_build (program_code : string) (_ : model_data)
    : result string :=
  if decide (program_code = "") then Err (Raised "RuntimeError")
  else Ok program_code.
Definition stan_sample (a : string) (_ : model_data) (_ : unit)
    : result string := Ok a.
Definition extract (_ : string) : dict string (ndarray Z) :=
  [("attack", Arr2 2 [[1; 2]; [3; 4]]); ("home_advantage", Arr1 [5; 6])].

(** A template that does not compile. *)
Definition broken : SoccerModel :=
  {| name := "broken";
     modelfile := "stan/broken.stan";
     parameters := [];
     team_parameters := [] |}.
Definition open_broken (_ : string) : result string := Ok "".

Definition cold : @world string := {| fs := ∅; trace := [] |}.

(** Two later calls for the same model, on other data. *)
Definition later : list (call unit) :=
  [ {| c_data := []; c_team_map := [("A", 1)]; c_model := model; c_kw := tt |};
    {| c_data := []; c_team_map := []; c_model := model; c_kw := tt |} ].
Definition corrupt : @world string :=
  {| fs := {[ pkl := Unreadable (Raised "UnpicklingError") ]}; trace := [] |}.

(** Draws with one column for two teams. *)
Definition narrow : dict string (value Z) :=
  [("attack", VArray (Arr2 1 [[5]; [7]]))].
Definition draws : dict string (value Z) :=
  [("attack", VArray (Arr2 2 [[1; 2]; [3; 4]]))].
(** Rows whose order shows which column is converted first. *)
Definition two_bad : list Raw.row :=
  [Raw.Row "A" "B" (CFloat 2 1) CNaN;
   Raw.Row "B" "A" (CInf false) (CFloat 0 1)].

(** A season and the same season with its rows swapped. *)
Definition autumn : list Raw.row :=
  [Raw.Row "B" "A" (CInt 1) (CInt 0); Raw.Row "C" "B" (CInt 2) (CInt 2)].
Definition autumn_swapped : list Raw.row :=
  [Raw.Row "C" "B" (CInt 2) (CInt 2); Raw.Row "B" "A" (CInt 1) (CInt 0)].

(** What Stan extracted, before the tidying. *)
Definition extracted : dict string (value Z) :=
  raw_output (extract "").

(** A cache that holds a model compiled from an older template. *)
Definition warm : @world string :=
  {| fs := {[ pkl := Pickled "old parameters {}" ]}; trace := [] |}.
Definition open_edited (_ : string) : result string := Ok "new parameters {}".

(** A sampler that fails. *)
Definition failing_sample (_ : string) (_ : model_data) (_ : unit)
    : result string := Err (Raised "RuntimeError").

(** Drawing functions whose figure is a caption, and a model with a scalar
    parameter that Stan does not return. *)
Definition plot_parameter (_ : value Z) (title : string) : result string :=
  Ok ("histogram of " +:+ title).
Definition plot_team_parameter (_ : value Z) (title : string)
    : result string := Ok ("intervals of " +:+ title).
Definition with_rho : SoccerModel :=
  {| name := "dixon-coles";
     modelfile := "stan/dixon-coles.stan";
     parameters := ["home_advantage"; "rho"];
     team_parameters := ["attack"] |}.
End Sample.

(** * Examples *)

Example stan_map_ex :
  stan_map ["Leeds"; "Arsenal"; "Leeds"; "Chelsea"; "Arsenal"]
  = [("Arsenal", 1); ("Chelsea", 2); ("Leeds", 3)].
Proof. reflexivity. Qed.

Example py_int_ex1 : py_int (CStr " -1_000 ") = Ok (-1000).
Proof. reflexivity. Qed.
Example py_int_ex2 : py_int (CStr "2.0") = Err ValueError.
Proof. reflexivity. Qed.
Example py_int_ex3 : py_int (CFloat (-5) 2) = Ok (-2).
Proof. reflexivity. Qed.
Example py_int_ex4 : py_int (CStr "1__0") = Err ValueError.
Proof. reflexivity. Qed.
Example py_int_ex5 : py_int (CStr "") = Err ValueError.
Proof. reflexivity. Qed.

Example read_data_ex :
  read_data [Raw.Row "A" "B" (CFloat 2 1) (CFloat 1 1);
             Raw.Row "B" "A" CNaN CNaN]
  = Ok ([Data.Row "A" "B" 2 1 (CInt 1) (CInt 2)], [("A", 1); ("B", 2)]).
Proof. reflexivity. Qed.

Example cache_file_ex : cache_file Sample.dir (name Sample.model) = Sample.pkl.
Proof. reflexivity. Qed.

Example tidy_output_ex :
  tidy_output [("A", 1); ("B", 2)] ["attack"] Sample.draws
  = Ok [("attack", VFrame {| columns := [CStr "A"; CStr "B"];
                             df_rows := [[1; 2]; [3; 4]] |})].
Proof. reflexivity. Qed.

Example fit_model_ex :
  fit_model Sample.open_read Sample.stan_build Sample.stan_sample
    Sample.extract Sample.dir [] [("A", 1); ("B", 2)] Sample.model true tt
    Sample.cold
  = (Ok [("attack", VFrame {| columns := [CStr "A"; CStr "B"];
                              df_rows := [[1; 2]; [3; 4]] |});
         ("home_advantage", VArray (Arr1 [5; 6]))],
     {| fs := {[ Sample.pkl := Pickled "parameters {}" ]};
        trace := [EvLoad Sample.pkl;
                  EvBuild "parameters {}" (make_model_data [] [("A", 1); ("B", 2)]);
                  EvDump Sample.pkl] |}).
Proof. reflexivity. Qed.

(** * Properties *)

(** ** Dictionaries *)

Section DictFacts.
Context {K V : Type} `{EqDecision K}.
Implicit Types (d : dict K V) (k : K) (v : V).

Lemma dict_get_Some_elem k v d : dict_get k d = Some v -> (k, v) ∈ d.
Proof.
  induction d as [|[k' v'] d IH]; simpl; [done|].
  destruct (decide (k = k')) as [->|]; intros Hg.
  - injection Hg as ->. left.
  - right. auto.
Qed.

Lemma dict_get_None k d : dict_get k d = None <-> k ∉ dict_keys d.
Proof.
  induction d as [|[k' v'] d IH]; simpl.
  - split; [intros _; apply not_elem_of_nil|done].
  - rewrite not_elem_of_cons. destruct (decide (k = k')); simpl; [|tauto].
    split; [done|tauto].
Qed.

Lemma dict_get_is_Some k d : is_Some (dict_get k d) <-> k ∈ dict_keys d.
Proof.
  rewrite <-not_eq_None_Some, dict_get_None.
  destruct (decide (k ∈ dict_keys d)); tauto.
Qed.

Lemma dict_set_fresh k v d : k ∉ dict_keys d -> dict_set k v d = d ++ [(k, v)].
Proof.
  induction d as [|[k' v'] d IH]; simpl; [done|].
  rewrite not_elem_of_cons. intros [Hne Hd].
  rewrite decide_False by done. by rewrite IH.
Qed.

Lemma dict_get_set k k' v d :
  dict_get k (dict_set k' v d)
  = if decide (k = k') then Some v else dict_get k d.
Proof.
  induction d as [|[k0 v0] d IH]; simpl.
  - by destruct (decide (k = k')).
  - destruct (decide (k' = k0)) as [->|Hne]; simpl.
    + by destruct (decide (k = k0)).
    + destruct (decide (k = k0)) as [->|]; simpl.
      * by rewrite decide_False by congruence.
      * apply IH.
Qed.
End DictFacts.

(** A comprehension that swaps the pairs of a list whose new keys are
    distinct appends them in order. *)
Lemma foldl_dict_set_swap {A B} `{EqDecision B} (ps : list (A * B))
    (acc : dict B A) :
  NoDup (map snd ps) -> (forall k, k ∈ map snd ps -> k ∉ dict_keys acc) ->
  foldl (fun d p => dict_set (snd p) (fst p) d) acc ps
  = acc ++ map (fun p => (snd p, fst p)) ps.
Proof.
  revert acc. induction ps as [|[a b] ps IH]; intros acc Hnd Hfresh; simpl.
  - by rewrite app_nil_r.
  - simpl in Hnd. apply NoDup_cons in Hnd as [Hb Hnd].
    rewrite dict_set_fresh by (apply Hfresh; left).
    rewrite IH; [by rewrite <-app_assoc|done|].
    intros k Hk. unfold dict_keys. rewrite map_app, elem_of_app. simpl.
    intros [Hin|Hin].
    + apply (Hfresh k); [by right|done].
    + apply list_elem_of_singleton in Hin. congruence.
Qed.

(** ** [enumerate] *)

Lemma enumerate_length {A} (l : list A) s : length (enumerate l s) = length l.
Proof. revert s. induction l; intros s; simpl; [done|]. by rewrite IHl. Qed.

Lemma enumerate_snd {A} (l : list A) s : map snd (enumerate l s) = l.
Proof. revert s. induction l; intros s; simpl; [done|]. by rewrite IHl. Qed.

Lemma enumerate_fst_lookup {A} (l : list A) s n i :
  map fst (enumerate l s) !! n = Some i -> i = s + Z.of_nat n.
Proof.
  revert s n. induction l as [|x l IH]; intros s [|n]; simpl; try done.
  - intros [= <-]. lia.
  - intros Hn%IH. lia.
Qed.

Lemma enumerate_fst_NoDup {A} (l : list A) s : NoDup (map fst (enumerate l s)).
Proof.
  apply NoDup_alt. intros n m i Hn%enumerate_fst_lookup Hm%enumerate_fst_lookup.
  lia.
Qed.

Lemma dict_get_enumerate (l : list string) s x i :
  NoDup l ->
  dict_get x (map (fun p => (snd p, fst p)) (enumerate l s)) = Some i
  <-> exists n, l !! n = Some x /\ i = s + Z.of_nat n.
Proof.
  revert s. induction l as [|y l IH]; intros s Hnd; simpl.
  - split; [done|]. by intros (n & Hn & _).
  - apply NoDup_cons in Hnd as [Hy Hnd].
    destruct (decide (x = y)) as [->|Hne].
    + split.
      * intros [= <-]. exists 0%nat. split; [done|lia].
      * intros ([|n] & Hn & ->); [f_equal; lia|].
        simpl in Hn. destruct Hy. by eapply list_elem_of_lookup_2.
    + rewrite IH by done. split.
      * intros (n & Hn & ->). exists (S n). split; [done|lia].
      * intros ([|n] & Hn & ->); simpl in Hn; [congruence|].
        exists n. split; [done|lia].
Qed.

Lemma dict_get_enumerate_id (l : list string) s k :
  dict_get k (enumerate l s)
  = if decide (s <= k) then l !! Z.to_nat (k - s) else None.
Proof.
  revert s. induction l as [|x l IH]; intros s; simpl.
  - by case_decide.
  - rewrite IH. destruct (decide (k = s)) as [->|Hne].
    + rewrite decide_True by lia.
      by replace (Z.to_nat (s - s)) with 0%nat by lia.
    + repeat case_decide; try lia; [|done].
      by replace (Z.to_nat (k - s)) with (S (Z.to_nat (k - (s + 1)))) by lia.
Qed.

(** ** [np_unique] *)

Lemma str_lt_ltb a b : str_lt a b <-> String.ltb a b = true.
Proof.
  unfold str_lt, strict, String.le, String.leb, String.ltb.
  rewrite (String.compare_antisym b a).
  destruct (String.compare a b); simpl; intuition congruence.
Qed.

Lemma drop_repeats_elem prev l x :
  x ∈ prev :: drop_repeats prev l <-> x ∈ prev :: l.
Proof.
  revert prev. induction l as [|y l IH]; intros prev; simpl; [done|].
  destruct (decide (y = prev)) as [->|Hne].
  - rewrite IH, !elem_of_cons. tauto.
  - rewrite !elem_of_cons, <-(elem_of_cons l x y), <-IH, elem_of_cons. tauto.
Qed.

Lemma drop_repeats_sorted prev l :
  StronglySorted String.le (prev :: l) ->
  StronglySorted str_lt (prev :: drop_repeats prev l).
Proof.
  revert prev. induction l as [|y l IH]; intros prev Hs; simpl.
  - repeat constructor.
  - apply StronglySorted_inv in Hs as [Hyl Hall].
    apply Forall_cons in Hall as [Hy Hl].
    destruct (decide (y = prev)) as [->|Hne].
    + by apply IH.
    + specialize (IH y Hyl).
      assert (str_lt prev y) as Hlt.
      { apply strict_spec_alt. split; [done|congruence]. }
      constructor; [done|].
      apply StronglySorted_inv in IH as [_ Hall].
      constructor; [done|].
      eapply Forall_impl; [exact Hall|]. intros z Hz. simpl in Hz.
      by trans y.
Qed.

Lemma np_unique_sorted vector : StronglySorted str_lt (np_unique vector).
Proof.
  unfold np_unique.
  pose proof (StronglySorted_merge_sort String.le vector) as Hs.
  destruct (merge_sort String.le vector) as [|x l]; [constructor|].
  by apply drop_repeats_sorted.
Qed.

Lemma np_unique_elem vector x : x ∈ np_unique vector <-> x ∈ vector.
Proof.
  unfold np_unique.
  rewrite <-(merge_sort_Permutation String.le vector) at 2.
  destruct (merge_sort String.le vector) as [|y l]; [done|].
  apply drop_repeats_elem.
Qed.

Lemma str_lt_sorted_NoDup l : StronglySorted str_lt l -> NoDup l.
Proof.
  induction 1 as [|x l Hs IH Hall]; constructor; [|done].
  intros Hin. rewrite Forall_forall in Hall.
  specialize (Hall x Hin). by apply irreflexivity in Hall; [|apply _].
Qed.

Lemma np_unique_NoDup vector : NoDup (np_unique vector).
Proof. apply str_lt_sorted_NoDup, np_unique_sorted. Qed.

Lemma np_unique_ext v1 v2 :
  (forall x, x ∈ v1 <-> x ∈ v2) -> np_unique v1 = np_unique v2.
Proof.
  intros Hext.
  apply (StronglySorted_unique_strong str_lt);
    [|apply np_unique_sorted..|].
  - intros x1 x2 _ _ [H12 Hn] [H21 _]. done.
  - apply NoDup_Permutation; [apply np_unique_NoDup..|].
    intros x. by rewrite !np_unique_elem.
Qed.

Lemma np_unique_length vector :
  length (np_unique vector) = size (list_to_set vector : gset string).
Proof.
  rewrite <-(size_list_to_set (C:=gset string)) by apply np_unique_NoDup.
  f_equal. apply set_eq. intros x.
  by rewrite !elem_of_list_to_set, np_unique_elem.
Qed.

Lemma sorted_lookup_lt (l : list string) n m a b :
  StronglySorted str_lt l -> l !! n = Some a -> l !! m = Some b ->
  (n < m)%nat -> str_lt a b.
Proof.
  intros Hs. revert n m.
  induction Hs as [|x l Hs IH Hall]; intros n m Hn Hm Hlt; [done|].
  destruct m as [|m]; [lia|]. simpl in Hm. destruct n as [|n]; simpl in Hn.
  - injection Hn as ->. rewrite Forall_forall in Hall.
    apply Hall. by eapply list_elem_of_lookup_2.
  - apply (IH n m); [done..|lia].
Qed.

Lemma StronglySorted_weaken {A} (R R' : relation A) l :
  (forall x y, R x y -> R' x y) -> StronglySorted R l -> StronglySorted R' l.
Proof.
  intros HR. induction 1 as [|x l Hs IH Hall]; constructor; [done|].
  eapply Forall_impl; [exact Hall|]. auto.
Qed.

(** ** [stan_map] *)

Lemma stan_map_eq vector :
  stan_map vector
  = map (fun p => (snd p, fst p)) (enumerate (np_unique vector) 1).
Proof.
  unfold stan_map. rewrite foldl_dict_set_swap; [done| |].
  - rewrite enumerate_snd. apply np_unique_NoDup.
  - intros x _. apply not_elem_of_nil.
Qed.

Lemma stan_map_lookup vector x i :
  dict_get x (stan_map vector) = Some i
  <-> exists n, np_unique vector !! n = Some x /\ i = 1 + Z.of_nat n.
Proof. rewrite stan_map_eq. apply dict_get_enumerate, np_unique_NoDup. Qed.

Lemma stan_map_keys vector : dict_keys (stan_map vector) = np_unique vector.
Proof.
  rewrite stan_map_eq. unfold dict_keys. rewrite map_map. simpl.
  apply enumerate_snd.
Qed.

Lemma make_reverse_map_stan_map vector :
  make_reverse_map (stan_map vector) = enumerate (np_unique vector) 1.
Proof.
  unfold make_reverse_map. rewrite stan_map_eq, foldl_dict_set_swap.
  - simpl. rewrite map_map. simpl. rewrite <-(map_id (enumerate _ _)) at 2.
    apply map_ext. by intros [].
  - rewrite map_map. simpl. apply enumerate_fst_NoDup.
  - intros k _. apply not_elem_of_nil.
Qed.

(** C2. For every sequence of labels [L], [stan_map L] maps exactly the
    labels of [L], is one-to-one, reaches exactly the integers 1 to N with
    N the number of distinct labels, numbers the labels in lexicographic
    order, has N entries, is the same mapping for every sequence with the
    same set of labels (so for every permutation or duplication of [L]),
    and is empty for the empty sequence. *)
Theorem stan_map_bijection (L : list string) :
  let m := stan_map L in
  let N := Z.of_nat (size (list_to_set L : gset string)) in
  (forall s, s ∈ L <-> is_Some (dict_get s m)) /\
  (forall a b i, dict_get a m = Some i -> dict_get b m = Some i -> a = b) /\
  (forall i, 1 <= i <= N <-> exists s, dict_get s m = Some i) /\
  (forall a b i j, dict_get a m = Some i -> dict_get b m = Some j ->
     (i < j <-> String.ltb a b = true)) /\
  dict_len m = N /\
  (forall L', (forall s, s ∈ L' <-> s ∈ L) -> stan_map L' = m) /\
  stan_map [] = [].
Proof.
  intros m N. subst m N. rewrite <-np_unique_length.
  split_and!.
  - intros s. by rewrite dict_get_is_Some, stan_map_keys, np_unique_elem.
  - intros a b i (n & Hn & ->)%stan_map_lookup (n' & Hn' & Hi)%stan_map_lookup.
    assert (n' = n) as -> by lia. congruence.
  - intros i. split.
    + intros [Hlo Hhi].
      destruct (lookup_lt_is_Some_2 (np_unique L) (Z.to_nat (i - 1)))
        as [s Hs]; [lia|].
      exists s. apply stan_map_lookup.
      exists (Z.to_nat (i - 1)). split; [done|lia].
    + intros (s & (n & Hn & ->)%stan_map_lookup).
      apply lookup_lt_Some in Hn. lia.
  - intros a b i j (n & Hn & ->)%stan_map_lookup
      (n' & Hn' & ->)%stan_map_lookup.
    pose proof (np_unique_sorted L) as Hs. rewrite <-str_lt_ltb. split.
    + intros Hlt. apply (sorted_lookup_lt (np_unique L) n n'); [done..|lia].
    + intros Hab. destruct (decide (n < n')%nat) as [|Hge]; [lia|].
      destruct (decide (n = n')) as [->|Hne].
      * assert (a = b) as -> by congruence.
        by apply irreflexivity in Hab; [|apply _].
      * assert (str_lt b a) as Hba
          by (apply (sorted_lookup_lt (np_unique L) n' n); [done..|lia]).
        destruct Hab as [_ Hn1], Hba as [Hle _]. done.
  - unfold dict_len. by rewrite stan_map_eq, length_map, enumerate_length.
  - intros L' Hext. unfold stan_map. by rewrite (np_unique_ext L' L).
  - done.
Qed.

(** ** [rmap] and [py_int] *)

Lemma rmap_Ok {A B} (f : A -> result B) l ys :
  rmap f l = Ok ys <-> Forall2 (fun x y => f x = Ok y) l ys.
Proof.
  revert ys. induction l as [|x l IH]; intros ys; simpl.
  - split; [intros [= <-]; constructor|by intros ->%Forall2_nil_inv_l].
  - destruct (f x) as [y|e] eqn:Hfx; simpl.
    + destruct (rmap f l) as [ys'|e] eqn:Hl; simpl.
      * split.
        -- intros [= <-]. constructor; [done|by apply IH].
        -- intros (y' & ys'' & Hy & Hys & ->)%Forall2_cons_inv_l.
           apply IH in Hys. congruence.
      * split; [done|].
        intros (y' & ys'' & Hy & Hys & ->)%Forall2_cons_inv_l.
        apply IH in Hys. done.
    + split; [done|].
      intros (y' & ys'' & Hy & Hys & ->)%Forall2_cons_inv_l. congruence.
Qed.

Lemma rmap_Err {A B} (f : A -> result B) l e :
  rmap f l = Err e -> exists x, x ∈ l /\ f x = Err e.
Proof.
  induction l as [|x l IH]; simpl; [done|].
  destruct (f x) as [y|e'] eqn:Hfx; simpl.
  - destruct (rmap f l) as [ys'|e'] eqn:Hl; simpl; [done|].
    intros [= ->]. destruct IH as (x' & Hin & Hx'); [done|].
    exists x'. split; [by right|done].
  - intros [= ->]. exists x. split; [left|done].
Qed.

Lemma rmap_fails {A B} (f : A -> result B) l x e :
  x ∈ l -> f x = Err e -> exists e', rmap f l = Err e'.
Proof.
  intros Hin Hfx. destruct (rmap f l) as [ys|e'] eqn:Hl; [|by eexists].
  apply rmap_Ok in Hl.
  apply list_elem_of_lookup in Hin as [i Hi].
  destruct (Forall2_lookup_l _ _ _ _ _ Hl Hi) as (y & _ & Hy). congruence.
Qed.

Lemma py_int_Err c e : py_int c = Err e -> e = ValueError \/ e = OverflowError.
Proof.
  destruct c as [| | | |s]; simpl; try (intros [= <-]; auto); try done.
  destruct (int_of_str s); [done|]. intros [= <-]. auto.
Qed.

(** ** [read_data] *)

Lemma elem_of_filter_played csv r :
  r ∈ List.filter played csv
  <-> r ∈ csv /\ pd_isnull (Raw.home_goals r) = false.
Proof.
  rewrite !list_elem_of_In, filter_In. unfold played.
  by rewrite negb_true_iff.
Qed.

(** What [read_data] returns when it returns. *)
Lemma read_data_Ok csv recs team_map :
  read_data csv = Ok (recs, team_map) <->
  let data := List.filter played csv in
  team_map = stan_map (map Raw.home_team data ++ map Raw.away_team data) /\
  exists hgs ags,
    rmap py_int (map Raw.home_goals data) = Ok hgs /\
    rmap py_int (map Raw.away_goals data) = Ok ags /\
    recs = frame data hgs ags
             (map (fun r => replace team_map (Raw.home_team r)) data)
             (map (fun r => replace team_map (Raw.away_team r)) data).
Proof.
  unfold read_data. simpl.
  destruct (rmap py_int (map Raw.home_goals _)) as [hgs|e]; simpl.
  - destruct (rmap py_int (map Raw.away_goals _)) as [ags|e]; simpl.
    + split.
      * intros [= <- <-]. split; [done|]. by exists hgs, ags.
      * intros (-> & hgs' & ags' & [= <-] & [= <-] & ->). done.
    + split; [done|]. intros (_ & ? & ? & _ & ? & _). done.
  - split; [done|]. intros (_ & ? & ? & ? & _). done.
Qed.

(** What [read_data] raises is what [int] raised on a kept row. *)
Lemma read_data_Err csv e :
  read_data csv = Err e ->
  exists r, r ∈ List.filter played csv /\
    (py_int (Raw.home_goals r) = Err e \/ py_int (Raw.away_goals r) = Err e).
Proof.
  unfold read_data. simpl.
  destruct (rmap py_int (map Raw.home_goals _)) as [hgs|e1] eqn:Hh; simpl.
  - destruct (rmap py_int (map Raw.away_goals _)) as [ags|e2] eqn:Ha;
      simpl; [done|].
    intros [= ->]. apply rmap_Err in Ha as (c & Hc & Hint).
    apply list_elem_of_fmap in Hc as (r & -> & Hr). eauto.
  - intros [= ->]. apply rmap_Err in Hh as (c & Hc & Hint).
    apply list_elem_of_fmap in Hc as (r & -> & Hr). eauto.
Qed.

Lemma read_data_team_map_keys csv recs team_map s :
  read_data csv = Ok (recs, team_map) ->
  (is_Some (dict_get s team_map) <->
   exists r, r ∈ csv /\ pd_isnull (Raw.home_goals r) = false /\
             (Raw.home_team r = s \/ Raw.away_team r = s)).
Proof.
  intros (-> & _)%read_data_Ok.
  rewrite dict_get_is_Some, stan_map_keys, np_unique_elem, elem_of_app.
  rewrite !list_elem_of_fmap. split.
  - intros [(r & -> & Hr)|(r & -> & Hr)];
      apply elem_of_filter_played in Hr as [Hin Hpl]; eauto 6.
  - intros (r & Hin & Hpl & [<-|<-]); [left|right]; exists r;
      (split; [done|by apply elem_of_filter_played]).
Qed.

(** A kept row with a goal count that [int] rejects makes [read_data]
    raise. *)
Lemma read_data_raises csv r :
  r ∈ csv -> pd_isnull (Raw.home_goals r) = false ->
  (exists e, py_int (Raw.home_goals r) = Err e) \/
  (exists e, py_int (Raw.away_goals r) = Err e) ->
  exists e, read_data csv = Err e /\ (e = ValueError \/ e = OverflowError).
Proof.
  intros Hin Hpl Hbad.
  assert (r ∈ List.filter played csv) as Hr by by apply elem_of_filter_played.
  destruct (read_data csv) as [[recs tm]|e] eqn:Hrd.
  - apply read_data_Ok in Hrd as (_ & hgs & ags & Hh & Ha & _).
    destruct Hbad as [[e He]|[e He]].
    + destruct (rmap_fails py_int (map Raw.home_goals (List.filter played csv))
                  (Raw.home_goals r) e) as [e' He']; [|done|congruence].
      apply list_elem_of_fmap. by exists r.
    + destruct (rmap_fails py_int (map Raw.away_goals (List.filter played csv))
                  (Raw.away_goals r) e) as [e' He']; [|done|congruence].
      apply list_elem_of_fmap. by exists r.
  - exists e. split; [done|].
    apply read_data_Err in Hrd as (r' & _ & [He|He]); by eapply py_int_Err.
Qed.

Lemma frame_Forall2 (P : Raw.row -> Data.row -> Prop) team_map data hgs ags :
  Forall2 (fun r z => py_int (Raw.home_goals r) = Ok z) data hgs ->
  Forall2 (fun r z => py_int (Raw.away_goals r) = Ok z) data ags ->
  (forall r hg ag, r ∈ data ->
     py_int (Raw.home_goals r) = Ok hg -> py_int (Raw.away_goals r) = Ok ag ->
     P r (Data.Row (Raw.home_team r) (Raw.away_team r) hg ag
            (replace team_map (Raw.home_team r))
            (replace team_map (Raw.away_team r)))) ->
  Forall2 P data
    (frame data hgs ags
       (map (fun r => replace team_map (Raw.home_team r)) data)
       (map (fun r => replace team_map (Raw.away_team r)) data)).
Proof.
  revert hgs ags. induction data as [|r data IH]; intros hgs ags Hh Ha HP.
  - constructor.
  - apply Forall2_cons_inv_l in Hh as (hg & hgs' & Hhg & Hh & ->).
    apply Forall2_cons_inv_l in Ha as (ag & ags' & Hag & Ha & ->).
    simpl. constructor.
    + apply HP; [left|done..].
    + apply IH; [done..|]. intros r' hg' ag' Hin. apply HP. by right.
Qed.

(** C1, as the code has it.  When [read_data] returns, the labels that
    have an identifier in the returned map are exactly the home and away
    labels of the rows whose home goal count is present: the labels are
    collected after the rows without a home goal count were removed, so a
    label that only such rows mention gets no identifier. *)
Theorem read_data_labels_from_played csv recs team_map :
  read_data csv = Ok (recs, team_map) ->
  forall s,
    is_Some (dict_get s team_map) <->
    exists r, r ∈ csv /\ pd_isnull (Raw.home_goals r) = false /\
              (Raw.home_team r = s \/ Raw.away_team r = s).
Proof. intros Hrd s. by eapply read_data_team_map_keys. Qed.

Lemma read_data_labels_from_played_witness :
  read_data Sample.season
  = Ok ([Data.Row "A" "B" 2 1 (CInt 1) (CInt 2)], [("A", 1); ("B", 2)]) /\
  forall s,
    is_Some (dict_get s [("A", 1); ("B", 2)]) <->
    exists r, r ∈ Sample.season /\ pd_isnull (Raw.home_goals r) = false /\
              (Raw.home_team r = s \/ Raw.away_team r = s).
Proof.
  split; [reflexivity|].
  apply (read_data_labels_from_played Sample.season
           [Data.Row "A" "B" 2 1 (CInt 1) (CInt 2)]).
  reflexivity.
Defined.

(** C1, as stated, fails: it is not the case that every label of every
    row, played or not, has an identifier in the returned map.  In
    [Sample.season] the label C only occurs in the row without goals, and
    the returned map is A:1, B:2. *)
Lemma read_data_labels_all_rows_fails :
  ~ (forall csv recs team_map,
       read_data csv = Ok (recs, team_map) ->
       forall r, r ∈ csv ->
         is_Some (dict_get (Raw.home_team r) team_map) /\
         is_Some (dict_get (Raw.away_team r) team_map)).
Proof.
  intros Hall.
  destruct (Hall Sample.season
              [Data.Row "A" "B" 2 1 (CInt 1) (CInt 2)]
              [("A", 1); ("B", 2)] eq_refl
              (Raw.Row "B" "C" CNaN CNaN)) as [_ [i Hi]].
  - right. left.
  - discriminate Hi.
Qed.

(** C3. When [read_data] returns, the returned rows are, one for one and
    in the same order, the rows of the table whose home goal count is not
    missing, and each carries as home and away identifiers integers that
    are values of the returned map (the values at its own labels). *)
Theorem read_data_records csv recs team_map :
  read_data csv = Ok (recs, team_map) ->
  Forall2 (normalised team_map)
    (List.filter (fun r => negb (pd_isnull (Raw.home_goals r))) csv) recs.
Proof.
  intros Hrd. pose proof Hrd as (Htm & hgs & ags & Hh & Ha & ->)%read_data_Ok.
  apply rmap_Ok, Forall2_fmap_l in Hh. apply rmap_Ok, Forall2_fmap_l in Ha.
  apply frame_Forall2; [done..|].
  intros r hg ag Hin%elem_of_filter_played Hhg Hag.
  destruct Hin as [Hin Hpl].
  assert (forall s, Raw.home_team r = s \/ Raw.away_team r = s ->
            exists i, replace team_map s = CInt i /\
                      dict_get s team_map = Some i /\ i ∈ dict_values team_map)
    as Hid.
  { intros s Hs.
    destruct (proj2 (read_data_team_map_keys _ _ _ s Hrd)) as [i Hi]; [eauto|].
    exists i. unfold replace. rewrite Hi. split_and!; [done..|].
    apply dict_get_Some_elem in Hi. unfold dict_values.
    apply list_elem_of_fmap. by exists (s, i). }
  unfold normalised. simpl. split_and!; auto.
Qed.

Lemma read_data_records_witness :
  read_data Sample.season
  = Ok ([Data.Row "A" "B" 2 1 (CInt 1) (CInt 2)], [("A", 1); ("B", 2)]) /\
  Forall2 (normalised [("A", 1); ("B", 2)])
    (List.filter (fun r => negb (pd_isnull (Raw.home_goals r))) Sample.season)
    [Data.Row "A" "B" 2 1 (CInt 1) (CInt 2)].
Proof.
  split; [reflexivity|].
  apply (read_data_records Sample.season). reflexivity.
Defined.

(** C4, as the code has it.  If a row that is kept (home goal count not
    missing) has a home or away goal count that [int] cannot convert,
    [read_data] raises, and what it raises is the exception that [int]
    raised on a goal count of a kept row, unchanged: [ValueError] for a
    missing or non-numeric value, [OverflowError] for an infinity.  The
    code has no exception class of its own and wraps nothing. *)
Theorem read_data_malformed_score csv r :
  r ∈ csv -> pd_isnull (Raw.home_goals r) = false ->
  (exists e, py_int (Raw.home_goals r) = Err e) \/
  (exists e, py_int (Raw.away_goals r) = Err e) ->
  exists e,
    read_data csv = Err e /\
    (e = ValueError \/ e = OverflowError) /\
    exists r', r' ∈ csv /\ pd_isnull (Raw.home_goals r') = false /\
               (py_int (Raw.home_goals r') = Err e \/
                py_int (Raw.away_goals r') = Err e).
Proof.
  intros Hin Hpl Hbad.
  destruct (read_data_raises csv r Hin Hpl Hbad) as (e & Hrd & He).
  exists e. split_and!; [done..|].
  apply read_data_Err in Hrd as (r' & [Hin' Hpl']%elem_of_filter_played & Hr').
  eauto.
Qed.

Lemma read_data_malformed_score_witness :
  read_data Sample.bad_score = Err ValueError /\
  exists e,
    read_data Sample.bad_score = Err e /\
    (e = ValueError \/ e = OverflowError) /\
    exists r', r' ∈ Sample.bad_score /\
               pd_isnull (Raw.home_goals r') = false /\
               (py_int (Raw.home_goals r') = Err e \/
                py_int (Raw.away_goals r') = Err e).
Proof.
  split; [reflexivity|].
  apply (read_data_malformed_score Sample.bad_score
           (Raw.Row "B" "A" (CStr "x") (CStr "0"))).
  - right. left.
  - reflexivity.
  - left. exists ValueError. reflexivity.
Defined.

(** C4, as stated, fails: a goal count that [int] cannot convert does not
    make [read_data] raise a MalformedScoreError.  On [Sample.bad_score],
    whose second row has the home goal count x, it raises the
    [ValueError] of [int]. *)
Lemma read_data_malformed_score_class_fails :
  ~ (forall csv r,
       r ∈ csv -> pd_isnull (Raw.home_goals r) = false ->
       (exists e, py_int (Raw.home_goals r) = Err e) \/
       (exists e, py_int (Raw.away_goals r) = Err e) ->
       read_data csv = Err (Raised "MalformedScoreError")).
Proof.
  intros Hall.
  assert (read_data Sample.bad_score = Err (Raised "MalformedScoreError"))
    as Hrd.
  { apply (Hall Sample.bad_score (Raw.Row "B" "A" (CStr "x") (CStr "0"))).
    - right. left.
    - reflexivity.
    - left. exists ValueError. reflexivity. }
  vm_compute in Hrd. discriminate Hrd.
Qed.

(** C9. A row whose home goal count is present and whose away goal count
    is missing passes the filter, which looks at the home goal count only;
    [int] raises [ValueError] on its away goal count, and [read_data]
    raises instead of dropping the row. *)
Theorem read_data_missing_away_goals csv r :
  r ∈ csv -> pd_isnull (Raw.home_goals r) = false ->
  pd_isnull (Raw.away_goals r) = true ->
  r ∈ List.filter (fun r => negb (pd_isnull (Raw.home_goals r))) csv /\
  py_int (Raw.away_goals r) = Err ValueError /\
  exists e, read_data csv = Err e /\ (e = ValueError \/ e = OverflowError).
Proof.
  intros Hin Hpl Haway.
  assert (py_int (Raw.away_goals r) = Err ValueError) as Hint.
  { by destruct (Raw.away_goals r). }
  split_and!; [by apply elem_of_filter_played|done|].
  apply (read_data_raises csv r); eauto.
Qed.

Lemma read_data_missing_away_goals_witness :
  read_data Sample.half_score = Err ValueError /\
  Raw.Row "A" "B" (CFloat 2 1) CNaN
    ∈ List.filter (fun r => negb (pd_isnull (Raw.home_goals r)))
        Sample.half_score /\
  py_int CNaN = Err ValueError /\
  exists e, read_data Sample.half_score = Err e /\
            (e = ValueError \/ e = OverflowError).
Proof.
  split; [reflexivity|].
  apply (read_data_missing_away_goals Sample.half_score
           (Raw.Row "A" "B" (CFloat 2 1) CNaN)).
  - left.
  - reflexivity.
  - reflexivity.
Defined.

(** ** The tidying of the output *)

Lemma relabel_stan_map vector (n : nat) :
  relabel (make_reverse_map (stan_map vector)) (CInt (Z.of_nat n))
  = match np_unique vector !! n with
    | Some label => Ok (CStr label)
    | None => Err KeyError
    end.
Proof.
  unfold relabel. rewrite make_reverse_map_stan_map, dict_get_enumerate_id.
  rewrite decide_True by lia.
  by replace (Z.to_nat (Z.of_nat n + 1 - 1)) with n by lia.
Qed.

Lemma relabel_seq vector (j k : nat) :
  (j <= length (np_unique vector))%nat ->
  rmap (relabel (make_reverse_map (stan_map vector)))
       (map CInt (map Z.of_nat (seq j k)))
  = if decide (j + k <= length (np_unique vector))%nat
    then Ok (map CStr (take k (drop j (np_unique vector))))
    else Err KeyError.
Proof.
  revert j. induction k as [|k IH]; intros j Hj.
  - simpl. by rewrite decide_True by lia.
  - cbn [seq map rmap]. rewrite relabel_stan_map.
    destruct (np_unique vector !! j) as [x|] eqn:Hx; simpl.
    + pose proof (lookup_lt_Some _ _ _ Hx). rewrite IH by lia.
      case_decide; simpl.
      * rewrite decide_True by lia. by rewrite (drop_S _ x j).
      * by rewrite decide_False by lia.
    + apply lookup_ge_None in Hx. by rewrite decide_False by lia.
Qed.

(** Under the encoder's map, the columns 0 to k-1 become the first k
    labels in sorted order, and a column past the last label is a
    [KeyError]. *)
Lemma relabel_range vector (k : nat) :
  rmap (relabel (make_reverse_map (stan_map vector))) (map CInt (range k))
  = if decide (k <= length (np_unique vector))%nat
    then Ok (map CStr (take k (np_unique vector)))
    else Err KeyError.
Proof. unfold range. rewrite relabel_seq by lia. done. Qed.

Lemma columns_of_array {num} (a : ndarray num) :
  columns (pd_DataFrame (VArray a)) = map CInt (range (ncols_of a)).
Proof. by destruct a. Qed.

Lemma relabel_Ok rm c c' :
  relabel rm c = Ok c' ->
  exists i label,
    c = CInt i /\ c' = CStr label /\ dict_get (i + 1) rm = Some label.
Proof.
  destruct c as [| |i| |]; simpl; try done.
  destruct (dict_get (i + 1) rm) as [label|] eqn:Hget; [|done].
  intros [= <-]. eauto.
Qed.

(** Relabelled columns are labels, and relabelling labels raises. *)
Lemma relabel_twice rm cols cols' cols'' :
  rmap (relabel rm) cols = Ok cols' -> rmap (relabel rm) cols' = Ok cols'' ->
  cols' = [] /\ cols'' = [].
Proof.
  intros H1%rmap_Ok H2%rmap_Ok.
  destruct H1 as [|c c' cols cols' Hc H1]; [by apply Forall2_nil_inv_l in H2|].
  apply Forall2_cons_inv_l in H2 as (c'' & ? & Hc' & _).
  apply relabel_Ok in Hc as (? & ? & _ & -> & _). done.
Qed.

Section TidyFacts.
Context {num : Type}.
Implicit Types (output : dict string (value num)) (v : value num)
  (df : DataFrame num).

Lemma tidy_param_Ok rm output param output' :
  tidy_param rm output param = Ok output' ->
  exists v df, dict_get param output = Some v /\ relabelled rm v df /\
               output' = dict_set param (VFrame df) output.
Proof.
  unfold tidy_param. destruct (dict_get param output) as [v|]; [|done].
  destruct (rmap _ _) as [cols|] eqn:Hcols; simpl; [|done].
  intros [= <-]. eexists v, _. split_and!; [done| |done]. by split.
Qed.

(** The loop replaces the entry of every listed parameter by its
    relabelled frame and leaves the other entries alone. *)
Lemma tidy_loop_Ok rm params output output' :
  tidy_loop rm params output = Ok output' ->
  forall p,
    (p ∈ params -> exists v df, dict_get p output = Some v /\
                      dict_get p output' = Some (VFrame df) /\
                      relabelled rm v df) /\
    (p ∉ params -> dict_get p output' = dict_get p output).
Proof.
  revert output. induction params as [|p0 params IH]; intros output; simpl.
  - intros [= <-] p. split; [by intros ?%elem_of_nil|done].
  - destruct (tidy_param rm output p0) as [o1|] eqn:H0; simpl; [|done].
    intros Hloop p. specialize (IH _ Hloop p) as [IHin IHout].
    apply tidy_param_Ok in H0 as (v0 & df0 & Hv0 & Hrel0 & ->).
    rewrite dict_get_set in IHin, IHout. split.
    + intros Hp. destruct (decide (p ∈ params)) as [Hin|Hnin].
      * destruct (IHin Hin) as (v1 & df & Hv1 & Hdf & Hrel).
        destruct (decide (p = p0)) as [->|Hne]; [|by eauto].
        injection Hv1 as <-. exists v0, df. split_and!; [done..|].
        destruct Hrel0 as [Hc0 Hr0], Hrel as [Hc Hr]. simpl in Hc, Hr.
        destruct (relabel_twice _ _ _ _ Hc0 Hc) as [E0 E].
        split; [by rewrite Hc0, E0, E|by rewrite Hr].
      * apply elem_of_cons in Hp as [->|]; [|done].
        rewrite decide_True in IHout by done.
        exists v0, df0. split_and!; [done|by apply IHout|done].
    + intros [Hne Hnin]%not_elem_of_cons.
      rewrite decide_False in IHout by done. by apply IHout.
Qed.

(** The columns that the tidying gives to an array under the encoder's
    map. *)
Lemma tidy_output_array L params output output' param a :
  tidy_output (stan_map L) params output = Ok output' ->
  param ∈ params ->
  dict_get param output = Some (VArray a) ->
  (ncols_of a <= length (np_unique L))%nat /\
  exists df, dict_get param output' = Some (VFrame df) /\
             columns df = map CStr (take (ncols_of a) (np_unique L)).
Proof.
  intros Hloop Hin Hget. unfold tidy_output in Hloop.
  destruct (proj1 (tidy_loop_Ok _ _ _ _ Hloop param) Hin)
    as (v & df & Hv & Hdf & Hcols & _).
  assert (v = VArray a) as -> by congruence.
  rewrite columns_of_array, relabel_range in Hcols.
  case_decide; [|done]. injection Hcols as Hcols. eauto.
Qed.

(** The tidying returns when the listed parameters are distinct and each
    is an array with at most one column per label. *)
Lemma tidy_output_returns L params output :
  NoDup params ->
  (forall p, p ∈ params ->
     exists a, dict_get p output = Some (VArray a) /\
               (ncols_of a <= length (np_unique L))%nat) ->
  exists output', tidy_output (stan_map L) params output = Ok output'.
Proof.
  unfold tidy_output. revert output.
  induction params as [|p0 params IH]; intros output Hnd Harr; simpl.
  - by eexists.
  - apply NoDup_cons in Hnd as [Hp0 Hnd].
    destruct (Harr p0) as (a0 & Ha0 & Hle0); [left|].
    unfold tidy_param. rewrite Ha0, columns_of_array, relabel_range.
    rewrite decide_True by done. simpl.
    apply IH; [done|]. intros p Hp.
    destruct (Harr p) as (a & Ha & Hle); [by right|].
    exists a. split; [|done].
    rewrite dict_get_set, decide_False; [done|]. by intros ->.
Qed.
End TidyFacts.

(** C8.  Under the encoder's map for the labels [L], and for a team
    parameter whose array has one column per distinct label (the shape
    the sampler gives a team parameter), the frame that the tidying makes
    has exactly the labels of [L] as column labels, and as many columns
    as there are distinct labels. *)
Theorem tidy_output_columns {num} L params
    (output output' : dict string (value num)) param a :
  tidy_output (stan_map L) params output = Ok output' ->
  param ∈ params ->
  dict_get param output = Some (VArray a) ->
  ncols_of a = size (list_to_set L : gset string) ->
  exists df,
    dict_get param output' = Some (VFrame df) /\
    (forall c, c ∈ columns df <-> exists label, c = CStr label /\ label ∈ L) /\
    length (columns df) = size (list_to_set L : gset string).
Proof.
  intros Hloop Hin Hget Hwidth.
  destruct (tidy_output_array _ _ _ _ _ _ Hloop Hin Hget)
    as (Hle & df & Hdf & Hcols).
  rewrite Hwidth, <-np_unique_length, firstn_all in Hcols.
  exists df. rewrite Hcols. split_and!; [done| |].
  - intros c. rewrite list_elem_of_fmap.
    split; intros (label & -> & Hl); exists label;
      (split; [done|]); by apply np_unique_elem.
  - by rewrite length_map, np_unique_length.
Qed.

Lemma tidy_output_columns_witness :
  exists df,
    dict_get "attack"
      [("attack", VFrame {| columns := [CStr "A"; CStr "B"];
                            df_rows := [[1; 2]; [3; 4]] |})]
    = Some (VFrame df) /\
    (forall c, c ∈ columns df <->
       exists label, c = CStr label /\ label ∈ ["B"; "A"; "B"]) /\
    length (columns df) = size (list_to_set ["B"; "A"; "B"] : gset string).
Proof.
  apply (tidy_output_columns ["B"; "A"; "B"] ["attack"] Sample.draws
           [("attack", VFrame {| columns := [CStr "A"; CStr "B"];
                                 df_rows := [[1; 2]; [3; 4]] |})]
           "attack" (Arr2 2 [[1; 2]; [3; 4]])).
  - reflexivity.
  - left.
  - reflexivity.
  - vm_compute. reflexivity.
Defined.

(** C10. Under the encoder's map for the labels [L], the frame that the
    tidying makes of a team parameter's array has, at each position i
    counted from 0, the one label whose identifier is i+1; its column
    labels are therefore in strictly increasing lexicographic order. *)
Theorem tidy_output_column_order {num} L params
    (output output' : dict string (value num)) param a :
  tidy_output (stan_map L) params output = Ok output' ->
  param ∈ params ->
  dict_get param output = Some (VArray a) ->
  exists df labels,
    dict_get param output' = Some (VFrame df) /\
    columns df = map CStr labels /\
    length labels = ncols_of a /\
    (forall (i : nat) label, labels !! i = Some label ->
       dict_get label (stan_map L) = Some (Z.of_nat i + 1) /\
       forall label', dict_get label' (stan_map L) = Some (Z.of_nat i + 1) ->
                      label' = label) /\
    StronglySorted (fun x y => String.ltb x y = true) labels.
Proof.
  intros Hloop Hin Hget.
  destruct (tidy_output_array _ _ _ _ _ _ Hloop Hin Hget)
    as (Hle & df & Hdf & Hcols).
  exists df, (take (ncols_of a) (np_unique L)).
  split_and!; [done..|by rewrite length_take; lia| |].
  - intros i label [Hi _]%lookup_take_Some.
    assert (dict_get label (stan_map L) = Some (Z.of_nat i + 1)) as Hl.
    { apply stan_map_lookup. exists i. split; [done|lia]. }
    split; [done|].
    intros label' (n & Hn & Hn')%stan_map_lookup.
    assert (n = i) as -> by lia. congruence.
  - apply (StronglySorted_weaken str_lt); [by intros x y ?%str_lt_ltb|].
    apply (StronglySorted_app_1_l _ _ (drop (ncols_of a) (np_unique L))).
    rewrite take_drop. apply np_unique_sorted.
Qed.

Lemma tidy_output_column_order_witness :
  exists df labels,
    dict_get "attack"
      [("attack", VFrame {| columns := [CStr "A"; CStr "B"];
                            df_rows := [[1; 2]; [3; 4]] |})]
    = Some (VFrame df) /\
    columns df = map CStr labels /\
    length labels = 2%nat /\
    (forall (i : nat) label, labels !! i = Some label ->
       dict_get label (stan_map ["B"; "A"; "B"]) = Some (Z.of_nat i + 1) /\
       forall label',
         dict_get label' (stan_map ["B"; "A"; "B"]) = Some (Z.of_nat i + 1) ->
         label' = label) /\
    StronglySorted (fun x y => String.ltb x y = true) labels.
Proof.
  apply (tidy_output_column_order ["B"; "A"; "B"] ["attack"] Sample.draws
           [("attack", VFrame {| columns := [CStr "A"; CStr "B"];
                                 df_rows := [[1; 2]; [3; 4]] |})]
           "attack" (Arr2 2 [[1; 2]; [3; 4]])).
  - reflexivity.
  - left.
  - reflexivity.
Defined.

(** ** The cached build in [fit_model] *)

Ltac run_fit_model :=
  unfold fit_model, bind, lift, try_except, joblib_load, build, joblib_dump,
    ret, log; simpl.

Section FitModelFacts.
Context {artifact fit kwargs num : Type}.
Variable open_read : string -> result string.
Variable stan_build : string -> model_data -> result artifact.
Variable stan_sample : artifact -> model_data -> kwargs -> result fit.
Variable extract : fit -> dict string (ndarray num).
Variable module_dir : string.

Local Abbreviation fit_model' :=
  (fit_model open_read stan_build stan_sample extract module_dir).
Local Abbreviation run_calls' :=
  (run_calls open_read stan_build stan_sample extract module_dir).
Local Abbreviation cache_file' := (cache_file module_dir).

Implicit Types (w : @world artifact) (model : SoccerModel).

(** The world after a call that finds no file at the cache location. *)
Lemma fit_model_world_cold w data team_map model kw program :
  open_read (modelfile model) = Ok program ->
  fs w !! cache_file' (name model) = None ->
  snd (fit_model' data team_map model true kw w)
  = match stan_build program (make_model_data data team_map) with
    | Ok a =>
        {| fs := <[cache_file' (name model) := Pickled a]> (fs w);
           trace := trace w ++
             [EvLoad (cache_file' (name model));
              EvBuild program (make_model_data data team_map);
              EvDump (cache_file' (name model))] |}
    | Err _ =>
        {| fs := fs w;
           trace := trace w ++
             [EvLoad (cache_file' (name model));
              EvBuild program (make_model_data data team_map)] |}
    end.
Proof.
  intros Hopen Hcold. run_fit_model.
  rewrite Hopen. simpl. rewrite Hcold. simpl.
  destruct (stan_build _ _) as [a|e]; simpl.
  - rewrite <-app_assoc. simpl. rewrite <-app_assoc. simpl.
    by destruct (stan_sample _ _ _) as [f|e]; simpl.
  - by rewrite <-app_assoc.
Qed.

(** The world after a call that finds a pickled model there. *)
Lemma fit_model_world_warm w data team_map model kw a :
  fs w !! cache_file' (name model) = Some (Pickled a) ->
  snd (fit_model' data team_map model true kw w)
  = {| fs := fs w;
       trace := trace w ++ warm_events open_read module_dir (name model)
                             {| c_data := data; c_team_map := team_map;
                                c_model := model; c_kw := kw |} |}.
Proof.
  intros Hwarm. run_fit_model. unfold warm_events. simpl.
  destruct (open_read _) as [program|e]; simpl.
  - rewrite Hwarm. simpl. by destruct (stan_sample _ _ _) as [f|e]; simpl.
  - rewrite app_nil_r. by destruct w.
Qed.

Lemma run_calls_warm w (cs : list (call kwargs)) model_name a :
  fs w !! cache_file' model_name = Some (Pickled a) ->
  Forall (fun c => name (c_model c) = model_name) cs ->
  run_calls' cs w
  = {| fs := fs w;
       trace := trace w ++
         concat (map (warm_events open_read module_dir model_name) cs) |}.
Proof.
  intros Hwarm Hall. revert w Hwarm.
  induction Hall as [|c cs Hc Hall IH]; intros w Hwarm; simpl.
  - rewrite app_nil_r. by destruct w.
  - rewrite (fit_model_world_warm _ _ _ _ _ a) by by rewrite Hc.
    rewrite IH by done. simpl. rewrite <-app_assoc, Hc. by destruct c.
Qed.

(** C5. With the cache in use, a template that can be read and compiles,
    and no file at the cache location of the model's name: the first call
    loads (and finds nothing), compiles once, then stores the compiled
    model at that location, which depends on the name alone; every later
    call for that name, whatever its data, leaves the files as they are
    and its only event is a load of that location: no compilation and no
    store. *)
Theorem fit_model_cache_idempotent w data team_map model kw program a
    (later : list (call kwargs)) :
  open_read (modelfile model) = Ok program ->
  fs w !! cache_file' (name model) = None ->
  stan_build program (make_model_data data team_map) = Ok a ->
  Forall (fun c => name (c_model c) = name model) later ->
  let path := cache_file' (name model) in
  let w1 := snd (fit_model' data team_map model true kw w) in
  let wn := run_calls' later w1 in
  trace w1 = trace w ++ [EvLoad path;
                         EvBuild program (make_model_data data team_map);
                         EvDump path] /\
  fs w1 = <[path := Pickled a]> (fs w) /\
  fs wn = fs w1 /\
  exists loads, trace wn = trace w1 ++ loads /\
                Forall (fun ev => ev = EvLoad path) loads /\
                loads = concat (map (warm_events open_read module_dir
                                       (name model)) later).
Proof.
  intros Hopen Hcold Hbuild Hlater path w1 wn. subst wn w1.
  rewrite (fit_model_world_cold _ _ _ _ _ program) by done.
  rewrite Hbuild. simpl.
  rewrite (run_calls_warm _ _ (name model) a);
    [|by apply lookup_insert_eq|done].
  simpl. split_and!; [done..|].
  eexists. split_and!; [done| |done].
  apply Forall_concat, Forall_fmap, Forall_true. intros c. simpl.
  unfold warm_events.
  destruct (open_read (modelfile (c_model c))); repeat constructor.
Qed.

(** C6, as the code has it.  With the cache in use, if the file at the
    cache location makes the load raise anything but [FileNotFoundError],
    [fit_model] raises that very exception, unchanged: the only event is
    the load, nothing is compiled and the files are as they were.  The
    handler catches [FileNotFoundError] only and wraps nothing. *)
Theorem fit_model_unreadable_cache w data team_map model kw program e :
  open_read (modelfile model) = Ok program ->
  fs w !! cache_file' (name model) = Some (Unreadable e) ->
  e <> FileNotFoundError ->
  fit_model' data team_map model true kw w
  = (Err e, {| fs := fs w;
               trace := trace w ++ [EvLoad (cache_file' (name model))] |}).
Proof.
  intros Hopen Hfile Hne. run_fit_model.
  rewrite Hopen. simpl. rewrite Hfile. simpl.
  by rewrite decide_False by done.
Qed.

(** C7. With the cache in use and no file at the cache location, if the
    compilation raises, [fit_model] raises the same exception, and the
    files are as they were: nothing was stored. *)
Theorem fit_model_failed_build w data team_map model kw program e :
  open_read (modelfile model) = Ok program ->
  fs w !! cache_file' (name model) = None ->
  stan_build program (make_model_data data team_map) = Err e ->
  fit_model' data team_map model true kw w
  = (Err e,
     {| fs := fs w;
        trace := trace w ++
          [EvLoad (cache_file' (name model));
           EvBuild program (make_model_data data team_map)] |}).
Proof.
  intros Hopen Hcold Hbuild. run_fit_model.
  rewrite Hopen. simpl. rewrite Hcold. simpl. rewrite Hbuild. simpl.
  by rewrite <-app_assoc.
Qed.
End FitModelFacts.

Lemma fit_model_cache_idempotent_witness :
  let path := Sample.pkl in
  let w1 :=
    snd (fit_model Sample.open_read Sample.stan_build Sample.stan_sample
           Sample.extract Sample.dir [] [("A", 1); ("B", 2)] Sample.model
           true tt Sample.cold) in
  let wn :=
    run_calls Sample.open_read Sample.stan_build Sample.stan_sample
      Sample.extract Sample.dir Sample.later w1 in
  trace w1 = [EvLoad path;
              EvBuild "parameters {}"
                (make_model_data [] [("A", 1); ("B", 2)]);
              EvDump path] /\
  fs w1 = <[path := Pickled "parameters {}"]> ∅ /\
  fs wn = fs w1 /\
  exists loads, trace wn = trace w1 ++ loads /\
                Forall (fun ev => ev = EvLoad path) loads /\
                loads = concat (map (warm_events Sample.open_read Sample.dir
                                       (name Sample.model)) Sample.later).
Proof.
  apply (fit_model_cache_idempotent Sample.open_read Sample.stan_build
           Sample.stan_sample Sample.extract Sample.dir Sample.cold
           [] [("A", 1); ("B", 2)] Sample.model tt "parameters {}"
           "parameters {}" Sample.later).
  - reflexivity.
  - reflexivity.
  - reflexivity.
  - repeat constructor.
Defined.

Lemma fit_model_unreadable_cache_witness :
  fit_model Sample.open_read Sample.stan_build Sample.stan_sample
    Sample.extract Sample.dir [] [("A", 1); ("B", 2)] Sample.model true tt
    Sample.corrupt
  = (Err (Raised "UnpicklingError"),
     {| fs := fs Sample.corrupt; trace := [EvLoad Sample.pkl] |}).
Proof.
  apply (fit_model_unreadable_cache Sample.open_read Sample.stan_build
           Sample.stan_sample Sample.extract Sample.dir Sample.corrupt
           [] [("A", 1); ("B", 2)] Sample.model tt "parameters {}"
           (Raised "UnpicklingError")).
  - reflexivity.
  - reflexivity.
  - discriminate.
Defined.

Lemma fit_model_failed_build_witness :
  fit_model Sample.open_broken Sample.stan_build Sample.stan_sample
    Sample.extract Sample.dir [] [("A", 1); ("B", 2)] Sample.broken true tt
    Sample.cold
  = (Err (Raised "RuntimeError"),
     {| fs := ∅;
        trace := [EvLoad "/srv/soccerstan/src/../cache/broken.pkl";
                  EvBuild "" (make_model_data [] [("A", 1); ("B", 2)])] |}).
Proof.
  apply (fit_model_failed_build Sample.open_broken Sample.stan_build
           Sample.stan_sample Sample.extract Sample.dir Sample.cold
           [] [("A", 1); ("B", 2)] Sample.broken tt ""
           (Raised "RuntimeError")).
  - reflexivity.
  - reflexivity.
  - reflexivity.
Defined.

(** C6, as stated, fails: a load that raises something other than
    [FileNotFoundError] does not make [fit_model] raise a
    CacheCorruptionError.  On [Sample.corrupt], whose cache file makes the
    load raise UnpicklingError, [fit_model] raises UnpicklingError. *)
Lemma fit_model_cache_corruption_class_fails :
  ~ (forall (open_read : string -> result string)
            (stan_build : string -> model_data -> result string)
            (stan_sample : string -> model_data -> unit -> result string)
            (extract : string -> dict string (ndarray Z))
            (module_dir : string) (w : world) data team_map model kw
            program e,
       open_read (modelfile model) = Ok program ->
       fs w !! cache_file module_dir (name model) = Some (Unreadable e) ->
       e <> FileNotFoundError ->
       fst (fit_model open_read stan_build stan_sample extract module_dir
              data team_map model true kw w)
       = Err (Raised "CacheCorruptionError")).
Proof.
  intros Hall.
  assert (fst (fit_model Sample.open_read Sample.stan_build
                 Sample.stan_sample Sample.extract Sample.dir
                 [] [("A", 1); ("B", 2)] Sample.model true tt Sample.corrupt)
          = Err (Raised "CacheCorruptionError")) as Hfit.
  { apply (Hall Sample.open_read Sample.stan_build Sample.stan_sample
             Sample.extract Sample.dir Sample.corrupt [] [("A", 1); ("B", 2)]
             Sample.model tt "parameters {}" (Raised "UnpicklingError")).
    - reflexivity.
    - reflexivity.
    - discriminate. }
  vm_compute in Hfit. discriminate Hfit.
Qed.

(** * Further properties *)

(** ** The identifiers of [stan_map] *)

Lemma filter_none {A} (P : A -> Prop) `{forall x, Decision (P x)}
    (l : list A) :
  Forall (fun y => ~ P y) l -> filter P l = [].
Proof.
  induction 1 as [|y l Hy Hl IH]; [done|].
  by rewrite filter_cons_False.
Qed.

(** In a strictly sorted list the elements below the one at position n
    are the first n. *)
Lemma sorted_filter_below l n x :
  StronglySorted str_lt l -> l !! n = Some x ->
  filter (below x) l = take n l.
Proof.
  intros Hs. revert n. induction Hs as [|y l Hs IH Hall]; intros n Hn; [done|].
  destruct n as [|n]; simpl in Hn.
  - injection Hn as ->. simpl. rewrite filter_cons_False.
    + apply filter_none. eapply Forall_impl; [exact Hall|].
      intros z Hz Hb. apply str_lt_ltb in Hb.
      destruct Hz as [_ Hz], Hb as [Hb _]. done.
    + intros Hb%str_lt_ltb. by apply irreflexivity in Hb; [|apply _].
  - simpl. rewrite filter_cons_True.
    + f_equal. by apply IH.
    + apply str_lt_ltb. rewrite Forall_forall in Hall. apply Hall.
      by eapply list_elem_of_lookup_2.
Qed.

Lemma size_below L x :
  size (filter (below x) (list_to_set L : gset string))
  = length (filter (below x) (np_unique L)).
Proof.
  rewrite <-(size_list_to_set (C:=gset string))
    by apply NoDup_filter, np_unique_NoDup.
  f_equal. apply set_eq. intros y.
  rewrite elem_of_filter, !elem_of_list_to_set, list_elem_of_filter.
  by rewrite np_unique_elem.
Qed.

Lemma label_index_count L x i :
  dict_get x (stan_map L) = Some i ->
  i = 1 + Z.of_nat (size (filter (below x) (list_to_set L : gset string))).
Proof.
  intros (n & Hn & ->)%stan_map_lookup.
  rewrite size_below, (sorted_filter_below _ n)
    by (apply np_unique_sorted || done).
  rewrite length_take. apply lookup_lt_Some in Hn. lia.
Qed.

(** X1. The identifier that [stan_map] gives to a label is one more than
    the number of distinct labels of the input that are lexicographically
    below it. *)
Theorem stan_map_rank L x i :
  dict_get x (stan_map L) = Some i ->
  x ∈ L /\
  i = 1 + Z.of_nat (size (filter (below x) (list_to_set L : gset string))).
Proof.
  intros Hi. split; [|by apply label_index_count].
  apply np_unique_elem. rewrite <-stan_map_keys.
  apply dict_get_is_Some. by eexists.
Qed.

Lemma stan_map_rank_witness :
  "C" ∈ ["B"; "A"; "B"; "C"] /\
  3 = 1 + Z.of_nat (size (filter (below "C")
                            (list_to_set ["B"; "A"; "B"; "C"] : gset string))).
Proof. apply (stan_map_rank ["B"; "A"; "B"; "C"] "C" 3). reflexivity. Defined.

(** X2. Identifiers are not stable when labels are added: a label of [L]
    keeps an identifier in any [L'] that contains the labels of [L], and
    its identifier grows by exactly the number of new distinct labels
    below it. *)
Theorem stan_map_grows L L' x i :
  (forall s, s ∈ L -> s ∈ L') ->
  dict_get x (stan_map L) = Some i ->
  exists j, dict_get x (stan_map L') = Some j /\ i <= j /\
            j - i = Z.of_nat (size (filter (below x)
                      (list_to_set L' ∖ list_to_set L : gset string))).
Proof.
  intros Hsub Hi.
  assert (x ∈ L) as Hx.
  { apply np_unique_elem. rewrite <-stan_map_keys.
    apply dict_get_is_Some. by eexists. }
  assert (is_Some (dict_get x (stan_map L'))) as [j Hj].
  { apply dict_get_is_Some. rewrite stan_map_keys. apply np_unique_elem. auto. }
  exists j. split; [done|].
  apply label_index_count in Hi, Hj. subst i j.
  assert (filter (below x) (list_to_set L' : gset string)
          = filter (below x) (list_to_set L)
            ∪ filter (below x) (list_to_set L' ∖ list_to_set L)) as ->.
  { apply set_eq. intros y. rewrite elem_of_union, !elem_of_filter,
      elem_of_difference, !elem_of_list_to_set.
    pose proof (Hsub y). destruct (decide (y ∈ L)); tauto. }
  rewrite size_union; [lia|].
  intros y. rewrite !elem_of_filter, elem_of_difference. tauto.
Qed.

Lemma stan_map_grows_witness :
  exists j, dict_get "B" (stan_map ["C"; "A"; "B"]) = Some j /\ 1 <= j /\
            j - 1 = Z.of_nat (size (filter (below "B")
                      (list_to_set ["C"; "A"; "B"]
                       ∖ list_to_set ["B"; "C"] : gset string))).
Proof.
  apply (stan_map_grows ["B"; "C"] ["C"; "A"; "B"] "B" 1).
  - intros s Hs. apply list_elem_of_In in Hs. apply list_elem_of_In.
    simpl in *. tauto.
  - reflexivity.
Defined.

(** X3. The reverse map that [fit_model] derives from the encoder's map is
    its inverse: it sends an identifier to a label exactly when the
    encoder's map sends that label to that identifier. *)
Theorem make_reverse_map_inverse L label i :
  dict_get i (make_reverse_map (stan_map L)) = Some label
  <-> dict_get label (stan_map L) = Some i.
Proof.
  rewrite make_reverse_map_stan_map, dict_get_enumerate_id, stan_map_lookup.
  case_decide as Hi.
  - split.
    + intros Hl. exists (Z.to_nat (i - 1)). split; [done|lia].
    + intros (n & Hn & ->).
      by replace (Z.to_nat (1 + Z.of_nat n - 1)) with n by lia.
  - split; [done|]. intros (n & _ & ->). lia.
Qed.

(** ** The result of [read_data] *)

Lemma rmap_Ok_map {A} (f : A -> cell) (l : list A) zs :
  rmap py_int (map f l) = Ok zs <->
  Forall (fun x => exists z, py_int (f x) = Ok z) l /\
  zs = map (fun x => goals_of (f x)) l.
Proof.
  rewrite rmap_Ok, Forall2_fmap_l. split.
  - induction 1 as [|x z l zs Hx Hl [IH1 IH2]]; [by split|].
    split; [constructor; eauto|]. simpl. unfold goals_of at 1. rewrite Hx.
    by f_equal.
  - intros [Hall ->]. induction Hall as [|x l [z Hz] Hl IH]; simpl;
      constructor; [|done]. unfold goals_of. by rewrite Hz.
Qed.

Lemma rmap_first_error {A B} (f : A -> result B) l1 x l2 e :
  Forall (fun x => exists y, f x = Ok y) l1 -> f x = Err e ->
  rmap f (l1 ++ x :: l2) = Err e.
Proof.
  induction 1 as [|x1 l1 [y Hy] Hl IH]; intros Hx; simpl.
  - by rewrite Hx.
  - by rewrite Hy, IH.
Qed.

Lemma frame_map team_map data :
  frame data (map (fun r => goals_of (Raw.home_goals r)) data)
    (map (fun r => goals_of (Raw.away_goals r)) data)
    (map (fun r => replace team_map (Raw.home_team r)) data)
    (map (fun r => replace team_map (Raw.away_team r)) data)
  = map (normal_row team_map) data.
Proof. induction data as [|r data IH]; simpl; [done|]. by rewrite IH. Qed.

(** [read_data] returns exactly when every kept row is coercible, and
    then with the normal rows of the kept rows. *)
Lemma read_data_Ok_map csv recs team_map :
  read_data csv = Ok (recs, team_map) <->
  team_map = stan_map (played_labels csv) /\
  Forall coercible (List.filter played csv) /\
  recs = map (normal_row team_map) (List.filter played csv).
Proof.
  rewrite read_data_Ok. simpl. unfold played_labels. split.
  - intros (-> & hgs & ags & [Hh ->]%rmap_Ok_map & [Ha ->]%rmap_Ok_map & ->).
    split_and!; [done| |by rewrite frame_map].
    rewrite Forall_forall in Hh, Ha. apply Forall_forall. intros r Hr.
    split; [by apply Hh|by apply Ha].
  - intros (-> & Hall & ->). split; [done|].
    eexists _, _. split_and!; [apply rmap_Ok_map; split; [|done]..|].
    + eapply Forall_impl; [exact Hall|]. by intros r [? ?].
    + eapply Forall_impl; [exact Hall|]. by intros r [? ?].
    + by rewrite frame_map.
Qed.

Lemma filter_played_all csv :
  (forall r, r ∈ csv -> pd_isnull (Raw.home_goals r) = true) ->
  List.filter played csv = [].
Proof.
  induction csv as [|r csv IH]; intros Hall; simpl; [done|].
  unfold played at 1. rewrite (Hall r) by left. simpl.
  apply IH. intros r' Hr'. apply Hall. by right.
Qed.

Lemma filter_Permutation_bool {A} (f : A -> bool) l l' :
  l ≡ₚ l' -> List.filter f l ≡ₚ List.filter f l'.
Proof.
  induction 1 as [|x l l' Hp IH|x y l|l1 l2 l3 H1 IH1 H2 IH2]; simpl.
  - done.
  - destruct (f x); [by constructor|done].
  - destruct (f x), (f y); try done. apply perm_swap.
  - by etrans.
Qed.

Lemma replace_keys team_map s :
  s ∈ dict_keys team_map ->
  exists i, replace team_map s = CInt i /\ dict_get s team_map = Some i.
Proof.
  intros [i Hi]%dict_get_is_Some. exists i. unfold replace. by rewrite Hi.
Qed.

(** X5. The home goal counts are converted before the away goal counts:
    when the first kept row whose home goal count [int] rejects raises
    [e], [read_data] raises [e], whatever the away goal counts of the rows
    before it are. *)
Theorem read_data_home_goals_first csv pre r post e :
  csv = pre ++ r :: post ->
  pd_isnull (Raw.home_goals r) = false ->
  py_int (Raw.home_goals r) = Err e ->
  (forall r', r' ∈ pre -> pd_isnull (Raw.home_goals r') = false ->
     exists z, py_int (Raw.home_goals r') = Ok z) ->
  read_data csv = Err e.
Proof.
  intros -> Hpl He Hpre. unfold read_data. simpl.
  rewrite List.filter_app. simpl. unfold played at 2. rewrite Hpl. simpl.
  rewrite map_app. simpl.
  rewrite (rmap_first_error _ _ _ _ e); [done| |done].
  apply Forall_fmap, Forall_forall.
  intros r' [Hin Hpl']%elem_of_filter_played. by apply Hpre.
Qed.

Lemma read_data_home_goals_first_witness :
  py_int (Raw.away_goals (Raw.Row "A" "B" (CFloat 2 1) CNaN)) = Err ValueError /\
  read_data Sample.two_bad = Err OverflowError.
Proof.
  split; [reflexivity|].
  apply (read_data_home_goals_first Sample.two_bad
           [Raw.Row "A" "B" (CFloat 2 1) CNaN]
           (Raw.Row "B" "A" (CInf false) (CFloat 0 1)) []).
  - reflexivity.
  - reflexivity.
  - reflexivity.
  - intros r' Hr' _. apply list_elem_of_singleton in Hr'. subst r'.
    exists 2. reflexivity.
Defined.

(** X6. A table in which no row has a home goal count, the empty table
    included, gives no rows and the empty map, without error. *)
Theorem read_data_nothing_played csv :
  (forall r, r ∈ csv -> pd_isnull (Raw.home_goals r) = true) ->
  read_data csv = Ok ([], []).
Proof.
  intros Hall. unfold read_data. simpl. by rewrite filter_played_all.
Qed.

Lemma read_data_nothing_played_witness :
  read_data [Raw.Row "B" "C" CNaN (CStr "x")] = Ok ([], []).
Proof.
  apply read_data_nothing_played.
  intros r Hr. apply list_elem_of_singleton in Hr. subst r. reflexivity.
Defined.

(** X7. The order of the rows only decides the order of the returned
    rows: on a permutation of a table on which [read_data] returns, it
    returns the same map and a permutation of the same rows. *)
Theorem read_data_row_order csv csv' recs team_map :
  csv ≡ₚ csv' ->
  read_data csv = Ok (recs, team_map) ->
  exists recs', read_data csv' = Ok (recs', team_map) /\ recs ≡ₚ recs'.
Proof.
  intros Hp (-> & Hall & ->)%read_data_Ok_map.
  pose proof (filter_Permutation_bool played _ _ Hp) as Hf.
  assert (stan_map (played_labels csv') = stan_map (played_labels csv)) as Htm.
  { unfold stan_map. f_equal. f_equal. apply np_unique_ext. intros s.
    unfold played_labels. by rewrite Hf. }
  eexists. split.
  - apply read_data_Ok_map. split_and!; [by symmetry| |done].
    by rewrite <-Hf.
  - by rewrite Hf.
Qed.

Lemma read_data_row_order_witness :
  exists recs',
    read_data Sample.autumn_swapped
    = Ok (recs', [("A", 1); ("B", 2); ("C", 3)]) /\
    [Data.Row "B" "A" 1 0 (CInt 2) (CInt 1);
     Data.Row "C" "B" 2 2 (CInt 3) (CInt 2)] ≡ₚ recs'.
Proof.
  apply (read_data_row_order Sample.autumn Sample.autumn_swapped).
  - apply perm_swap.
  - reflexivity.
Defined.

(** X8. What [read_data] returns makes a well-formed input for Stan:
    [n_games] is the number of kept rows, [n_teams] the number of distinct
    labels of the kept rows, the four sequences have [n_games] entries,
    and every team identifier is an integer from 1 to [n_teams]. *)
Theorem read_data_model_data csv recs team_map :
  read_data csv = Ok (recs, team_map) ->
  let md := make_model_data recs team_map in
  n_games md = Z.of_nat (length (List.filter played csv)) /\
  n_teams md
  = Z.of_nat (size (list_to_set (played_labels csv) : gset string)) /\
  Z.of_nat (length (md_home_team md)) = n_games md /\
  Z.of_nat (length (md_away_team md)) = n_games md /\
  Z.of_nat (length (md_home_goals md)) = n_games md /\
  Z.of_nat (length (md_away_goals md)) = n_games md /\
  Forall (fun c => exists i, c = CInt i /\ 1 <= i <= n_teams md)
    (md_home_team md ++ md_away_team md).
Proof.
  intros (-> & Hall & ->)%read_data_Ok_map md. subst md.
  unfold make_model_data. simpl. rewrite !length_map.
  assert (dict_len (stan_map (played_labels csv))
          = Z.of_nat (size (list_to_set (played_labels csv) : gset string)))
    as Hlen.
  { unfold dict_len.
    by rewrite stan_map_eq, length_map, enumerate_length, np_unique_length. }
  split_and!; [done..|].
  rewrite Hlen, <-np_unique_length.
  assert (forall r, r ∈ List.filter played csv ->
            forall s, s = Raw.home_team r \/ s = Raw.away_team r ->
            exists i, replace (stan_map (played_labels csv)) s = CInt i /\
              1 <= i <= Z.of_nat (length (np_unique (played_labels csv))))
    as Hid.
  { intros r Hr s Hs.
    destruct (replace_keys (stan_map (played_labels csv)) s)
      as (i & Hi & Hget).
    { rewrite stan_map_keys, np_unique_elem. unfold played_labels.
      rewrite elem_of_app, !list_elem_of_fmap. destruct Hs as [->| ->]; eauto. }
    exists i. split; [done|].
    apply stan_map_lookup in Hget as (n & Hn & ->).
    apply lookup_lt_Some in Hn. lia. }
  rewrite !map_map. simpl. apply Forall_app.
  split; apply Forall_fmap, Forall_forall; intros r Hr; simpl;
    eapply Hid; eauto.
Qed.

Lemma read_data_model_data_witness :
  let md := make_model_data [Data.Row "A" "B" 2 1 (CInt 1) (CInt 2)]
              [("A", 1); ("B", 2)] in
  n_games md = Z.of_nat (length (List.filter played Sample.season)) /\
  n_teams md
  = Z.of_nat (size (list_to_set (played_labels Sample.season)
                    : gset string)) /\
  Z.of_nat (length (md_home_team md)) = n_games md /\
  Z.of_nat (length (md_away_team md)) = n_games md /\
  Z.of_nat (length (md_home_goals md)) = n_games md /\
  Z.of_nat (length (md_away_goals md)) = n_games md /\
  Forall (fun c => exists i, c = CInt i /\ 1 <= i <= n_teams md)
    (md_home_team md ++ md_away_team md).
Proof. apply (read_data_model_data Sample.season). reflexivity. Defined.

(** ** The tidying, for any map *)

Lemma dict_keys_set_present {K V} `{EqDecision K} (k : K) (v : V)
    (d : dict K V) :
  k ∈ dict_keys d -> dict_keys (dict_set k v d) = dict_keys d.
Proof.
  induction d as [|[k0 v0] d IH]; simpl; [by intros ?%elem_of_nil|].
  destruct (decide (k = k0)) as [->|Hne]; simpl; [done|].
  intros [?|Hin]%elem_of_cons; [done|]. by rewrite IH.
Qed.

(** An entry of a comprehension that swaps the pairs of a list comes from
    one of its pairs. *)
Lemma foldl_dict_set_sound {A B} `{EqDecision B} (ps : list (A * B))
    (acc : dict B A) k a :
  dict_get k (foldl (fun d p => dict_set (snd p) (fst p) d) acc ps) = Some a ->
  dict_get k acc = Some a \/ (a, k) ∈ ps.
Proof.
  revert acc. induction ps as [|[a0 b0] ps IH]; intros acc; simpl; [auto|].
  intros [Hacc|Hin]%IH.
  - rewrite dict_get_set in Hacc. case_decide as Hk; [|auto].
    injection Hacc as ->. subst. right. left.
  - right. by right.
Qed.

Lemma make_reverse_map_sound team_map i label :
  dict_get i (make_reverse_map team_map) = Some label ->
  (label, i) ∈ team_map.
Proof. intros [Hnil|Hin]%foldl_dict_set_sound; done. Qed.

Lemma dict_get_raw_output {num} (d : dict string (ndarray num)) p :
  dict_get p (raw_output d) = VArray <$> dict_get p d.
Proof.
  induction d as [|[k a] d IH]; simpl; [done|].
  by destruct (decide (p = k)).
Qed.

Section TidyExtras.
Context {num : Type}.
Implicit Types (output : dict string (value num)).

Lemma tidy_loop_keys rm params output output' :
  tidy_loop rm params output = Ok output' ->
  dict_keys output' = dict_keys output.
Proof.
  revert output. induction params as [|p0 params IH]; intros output; simpl.
  - by intros [= <-].
  - destruct (tidy_param rm output p0) as [o1|] eqn:H0; simpl; [|done].
    intros ->%IH.
    apply tidy_param_Ok in H0 as (v0 & df0 & Hv0 & _ & ->).
    apply dict_keys_set_present, dict_get_is_Some. by eexists.
Qed.

Lemma tidy_loop_Err rm params output e :
  tidy_loop rm params output = Err e ->
  e = KeyError \/ e = Raised "TypeError".
Proof.
  revert output.
  induction params as [|p0 params IH]; intros output; simpl; [done|].
  destruct (tidy_param rm output p0) as [o1|e0] eqn:H0; simpl; [by apply IH|].
  intros [= ->]. unfold tidy_param in H0.
  destruct (dict_get p0 output) as [v|]; [|injection H0 as <-; auto].
  destruct (rmap _ _) as [cols|e1] eqn:Hcols; simpl in H0; [done|].
  injection H0 as ->. apply rmap_Err in Hcols as (c & _ & Hc).
  unfold relabel in Hc. destruct c; try (injection Hc as <-; auto).
  destruct (dict_get _ _); [done|]. injection Hc as <-. auto.
Qed.

(** X9. When the tidying returns, the output dictionary has the same
    parameter names in the same order, and the entry of every name that
    is not a listed team parameter is what it was. *)
Theorem tidy_output_other_entries team_map params output output' :
  tidy_output team_map params output = Ok output' ->
  dict_keys output' = dict_keys output /\
  forall p, p ∉ params -> dict_get p output' = dict_get p output.
Proof.
  unfold tidy_output. intros Hloop. split; [by eapply tidy_loop_keys|].
  intros p. by apply (tidy_loop_Ok _ _ _ _ Hloop p).
Qed.

(** X10. A listed team parameter that the output does not hold makes the
    tidying raise, with [KeyError] or with the [TypeError] of an earlier
    parameter; it never returns without it. *)
Theorem tidy_output_missing_parameter team_map params output param :
  param ∈ params -> dict_get param output = None ->
  exists e, tidy_output team_map params output = Err e /\
            (e = KeyError \/ e = Raised "TypeError").
Proof.
  unfold tidy_output. intros Hin Hnone.
  destruct (tidy_loop _ params output) as [output'|e] eqn:Hloop.
  - destruct (proj1 (tidy_loop_Ok _ _ _ _ Hloop param) Hin)
      as (v & _ & Hv & _).
    congruence.
  - exists e. split; [done|]. by eapply tidy_loop_Err.
Qed.

(** X11. For any map, also one that gives two labels the same
    identifier, every column label of a tidied team parameter is a label
    of the map, paired in it with the column's position plus one. *)
Theorem tidy_output_labels_are_keys team_map params output output' param :
  tidy_output team_map params output = Ok output' ->
  param ∈ params ->
  exists df, dict_get param output' = Some (VFrame df) /\
    forall c, c ∈ columns df ->
      exists label i, c = CStr label /\ (label, i) ∈ team_map.
Proof.
  unfold tidy_output. intros Hloop Hin.
  destruct (proj1 (tidy_loop_Ok _ _ _ _ Hloop param) Hin)
    as (v & df & _ & Hdf & Hcols & _).
  exists df. split; [done|]. intros c Hc.
  apply rmap_Ok in Hcols.
  apply list_elem_of_lookup in Hc as [n Hn].
  destruct (Forall2_lookup_r _ _ _ _ _ Hcols Hn) as (c0 & _ & Hrel).
  apply relabel_Ok in Hrel as (i & label & _ & -> & Hget).
  exists label, (i + 1). split; [done|]. by apply make_reverse_map_sound.
Qed.

(** X12. Under the encoder's map, an array with more columns than there
    are distinct labels makes the tidying raise [KeyError] when its
    parameter comes first. *)
Theorem tidy_output_too_wide L params output param a :
  dict_get param output = Some (VArray a) ->
  (size (list_to_set L : gset string) < ncols_of a)%nat ->
  tidy_output (stan_map L) (param :: params) output = Err KeyError.
Proof.
  intros Hget Hwide. unfold tidy_output. simpl. unfold tidy_param.
  rewrite Hget, columns_of_array, relabel_range.
  rewrite decide_False; [done|]. rewrite np_unique_length. lia.
Qed.
End TidyExtras.

Lemma tidy_output_other_entries_witness :
  dict_keys
    [("attack", VFrame {| columns := [CStr "A"; CStr "B"];
                          df_rows := [[1; 2]; [3; 4]] |});
     ("home_advantage", VArray (Arr1 [5; 6]))]
  = dict_keys Sample.extracted /\
  forall p, p ∉ ["attack"] ->
    dict_get p
      [("attack", VFrame {| columns := [CStr "A"; CStr "B"];
                            df_rows := [[1; 2]; [3; 4]] |});
       ("home_advantage", VArray (Arr1 [5; 6]))]
    = dict_get p Sample.extracted.
Proof.
  apply (tidy_output_other_entries [("A", 1); ("B", 2)] ["attack"]
           Sample.extracted).
  reflexivity.
Defined.

Lemma tidy_output_missing_parameter_witness :
  exists e,
    tidy_output [("A", 1); ("B", 2)] ["attack"; "defence"] Sample.extracted
    = Err e /\
    (e = KeyError \/ e = Raised "TypeError").
Proof.
  apply (tidy_output_missing_parameter [("A", 1); ("B", 2)]
           ["attack"; "defence"] Sample.extracted "defence").
  - right. left.
  - reflexivity.
Defined.

Lemma tidy_output_labels_are_keys_witness :
  exists df,
    dict_get "attack"
      [("attack", VFrame {| columns := [CStr "B"]; df_rows := [[5]; [7]] |})]
    = Some (VFrame df) /\
    forall c, c ∈ columns df ->
      exists label i, c = CStr label /\ (label, i) ∈ [("A", 1); ("B", 1)].
Proof.
  apply (tidy_output_labels_are_keys [("A", 1); ("B", 1)] ["attack"]
           Sample.narrow).
  - reflexivity.
  - left.
Defined.

Lemma tidy_output_too_wide_witness :
  tidy_output (stan_map ["A"; "A"]) ["attack"] Sample.draws = Err KeyError.
Proof.
  apply (tidy_output_too_wide ["A"; "A"] [] Sample.draws "attack"
           (Arr2 2 [[1; 2]; [3; 4]])).
  - reflexivity.
  - vm_compute. lia.
Defined.

(** ** The whole of [fit_model] *)

Section FitModelExtras.
Context {artifact fit kwargs num : Type}.
Variable open_read : string -> result string.
Variable stan_build : string -> model_data -> result artifact.
Variable stan_sample : artifact -> model_data -> kwargs -> result fit.
Variable extract : fit -> dict string (ndarray num).
Variable module_dir : string.

Local Abbreviation fit_model' :=
  (fit_model open_read stan_build stan_sample extract module_dir).
Local Abbreviation cache_file' := (cache_file module_dir).
Local Abbreviation load_or_build' := (load_or_build stan_build).
Local Abbreviation sample_and_tidy' := (sample_and_tidy stan_sample extract).

Implicit Types (w : @world artifact) (model : SoccerModel).

(** [fit_model] reads the template, gets a compiled model, then samples
    and tidies; only the second step touches the world. *)
Lemma fit_model_eq w data team_map model use_cache kw :
  fit_model' data team_map model use_cache kw w
  = match open_read (modelfile model) with
    | Err e => (Err e, w)
    | Ok program =>
        match load_or_build' program (make_model_data data team_map)
                (cache_file' (name model)) use_cache w with
        | (Ok a, w1) => (sample_and_tidy' a data team_map model kw, w1)
        | (Err e, w1) => (Err e, w1)
        end
    end.
Proof.
  unfold fit_model, sample_and_tidy, raw_output, load_or_build, bind, lift.
  destruct (open_read _) as [program|e]; [|done].
  destruct use_cache.
  - destruct (try_except _ _ _ w) as [[a|e] w1]; [|done].
    by destruct (stan_sample _ _ _).
  - destruct (build _ _ _ w) as [[a|e] w1]; [|done].
    by destruct (stan_sample _ _ _).
Qed.

(** The outcomes of [load_or_build] with the cache in use. *)
Lemma load_or_build_cached program md path w :
  load_or_build' program md path true w
  = match fs w !! path with
    | Some (Pickled a) => (Ok a, log (EvLoad path) w)
    | Some (Unreadable e) =>
        if decide (e = FileNotFoundError) then
          match stan_build program md with
          | Ok a => (Ok a, {| fs := <[path := Pickled a]> (fs w);
                              trace := trace w ++ [EvLoad path;
                                         EvBuild program md; EvDump path] |})
          | Err e' => (Err e', {| fs := fs w;
                                  trace := trace w ++ [EvLoad path;
                                             EvBuild program md] |})
          end
        else (Err e, log (EvLoad path) w)
    | None =>
        match stan_build program md with
        | Ok a => (Ok a, {| fs := <[path := Pickled a]> (fs w);
                            trace := trace w ++ [EvLoad path;
                                       EvBuild program md; EvDump path] |})
        | Err e' => (Err e', {| fs := fs w;
                                trace := trace w ++ [EvLoad path;
                                           EvBuild program md] |})
        end
    end.
Proof.
  unfold load_or_build, try_except, joblib_load, bind, build, joblib_dump,
    ret, log. simpl.
  destruct (fs w !! path) as [[a0|e0]|]; simpl; [done| |].
  - destruct (decide (e0 = FileNotFoundError)); [|done].
    destruct (stan_build program md); simpl; by rewrite <-!app_assoc.
  - destruct (stan_build program md); simpl; by rewrite <-!app_assoc.
Qed.

(** The result of a call that finds a pickled model in the cache. *)
Lemma fit_model_warm_result w data team_map model kw a :
  fs w !! cache_file' (name model) = Some (Pickled a) ->
  fit_model' data team_map model true kw w
  = match open_read (modelfile model) with
    | Err e => (Err e, w)
    | Ok _ => (sample_and_tidy' a data team_map model kw,
               log (EvLoad (cache_file' (name model))) w)
    end.
Proof.
  intros Hwarm. rewrite fit_model_eq.
  destruct (open_read _) as [program|e]; [|done].
  by rewrite load_or_build_cached, Hwarm.
Qed.

(** X13. Without the cache a call never reads or writes a file: the files
    are as they were, and the only event is one compilation of the
    template, or none when the template cannot be read. *)
Theorem fit_model_without_cache w data team_map model kw :
  let w' := snd (fit_model' data team_map model false kw w) in
  fs w' = fs w /\
  trace w' = trace w ++
    match open_read (modelfile model) with
    | Ok program => [EvBuild program (make_model_data data team_map)]
    | Err _ => []
    end.
Proof.
  rewrite fit_model_eq. unfold load_or_build, build, log.
  destruct (open_read _) as [program|e]; simpl; [|by rewrite app_nil_r].
  by destruct (stan_build _ _) as [a|e].
Qed.

(** X14. Whatever its arguments and its outcome, a call leaves every file
    but the cache file of its model's name as it was, compiles at most
    once, and changes that cache file only by storing a freshly compiled
    model after a load that raised [FileNotFoundError]: a pickled model
    that loads is never replaced. *)
Theorem fit_model_touches_one_file w data team_map model use_cache kw :
  let path := cache_file' (name model) in
  let w' := snd (fit_model' data team_map model use_cache kw w) in
  (forall p, p <> path -> fs w' !! p = fs w !! p) /\
  (fs w' !! path = fs w !! path \/
   exists program a,
     use_cache = true /\
     open_read (modelfile model) = Ok program /\
     stan_build program (make_model_data data team_map) = Ok a /\
     (fs w !! path = None \/
      fs w !! path = Some (Unreadable FileNotFoundError)) /\
     fs w' !! path = Some (Pickled a)) /\
  exists evs, trace w' = trace w ++ evs /\
              (length (List.filter is_build evs) <= 1)%nat.
Proof.
  intros path w'. subst w' path. rewrite fit_model_eq.
  destruct (open_read _) as [program|e] eqn:Hopen; simpl.
  2:{ split; [done|]. split; [by left|].
      exists []. split; [by rewrite app_nil_r|simpl; lia]. }
  destruct use_cache.
  - rewrite load_or_build_cached.
    destruct (fs w !! cache_file' (name model)) as [[a0|e0]|] eqn:Hfile; simpl.
    + split; [done|]. split; [by left|].
      eexists [_]. split; [done|simpl; lia].
    + destruct (decide (e0 = FileNotFoundError)) as [->|Hne]; simpl.
      * destruct (stan_build _ _) as [a|e] eqn:Hbuild; simpl.
        -- split; [intros p Hp; by rewrite lookup_insert_ne|].
           split; [right; exists program, a;
                   rewrite lookup_insert_eq; auto 10|].
           eexists [_; _; _]. split; [done|simpl; lia].
        -- split; [done|]. split; [by left|].
           eexists [_; _]. split; [done|simpl; lia].
      * split; [done|]. split; [by left|].
        eexists [_]. split; [done|simpl; lia].
    + destruct (stan_build _ _) as [a|e] eqn:Hbuild; simpl.
      * split; [intros p Hp; by rewrite lookup_insert_ne|].
        split; [right; exists program, a;
                rewrite lookup_insert_eq; auto 10|].
        eexists [_; _; _]. split; [done|simpl; lia].
      * split; [done|]. split; [by left|].
        eexists [_; _]. split; [done|simpl; lia].
  - unfold load_or_build, build, log.
    destruct (stan_build _ _) as [a|e]; simpl;
      (split; [done|]; split; [by left|];
       eexists [_]; split; [done|simpl; lia]).
Qed.

(** X16. A call on a cold cache that compiles and then fails, in the
    sampling or in the tidying, raises that failure and still leaves the
    compiled model stored at the cache location. *)
Theorem fit_model_failure_after_build w data team_map model kw program a e :
  open_read (modelfile model) = Ok program ->
  fs w !! cache_file' (name model) = None ->
  stan_build program (make_model_data data team_map) = Ok a ->
  sample_and_tidy' a data team_map model kw = Err e ->
  fit_model' data team_map model true kw w
  = (Err e,
     {| fs := <[cache_file' (name model) := Pickled a]> (fs w);
        trace := trace w ++
          [EvLoad (cache_file' (name model));
           EvBuild program (make_model_data data team_map);
           EvDump (cache_file' (name model))] |}).
Proof.
  intros Hopen Hcold Hbuild Hfail.
  by rewrite fit_model_eq, Hopen, load_or_build_cached, Hcold, Hbuild, Hfail.
Qed.

(** X17. Without the cache, when the template is read and compiled, the
    sampling returns, the team parameters are distinct and each is
    extracted as an array with at most one column per label, [fit_model]
    returns: the output has the extracted parameter names in their order,
    every team parameter is a frame with the draws of its array under the
    first labels in sorted order, and every other entry is the extracted
    array. *)
Theorem fit_model_returns w data L model kw program a f :
  open_read (modelfile model) = Ok program ->
  stan_build program (make_model_data data (stan_map L)) = Ok a ->
  stan_sample a (make_model_data data (stan_map L)) kw = Ok f ->
  NoDup (team_parameters model) ->
  (forall p, p ∈ team_parameters model ->
     exists arr, dict_get p (extract f) = Some arr /\
                 (ncols_of arr <= size (list_to_set L : gset string))%nat) ->
  exists output,
    fst (fit_model' data (stan_map L) model false kw w) = Ok output /\
    dict_keys output = dict_keys (extract f) /\
    (forall p arr, p ∈ team_parameters model ->
       dict_get p (extract f) = Some arr ->
       exists df, dict_get p output = Some (VFrame df) /\
                  columns df = map CStr (take (ncols_of arr) (np_unique L)) /\
                  df_rows df = df_rows (pd_DataFrame (VArray arr))) /\
    (forall p, p ∉ team_parameters model ->
       dict_get p output = VArray <$> dict_get p (extract f)).
Proof.
  intros Hopen Hbuild Hsample Hnd Harr.
  rewrite fit_model_eq, Hopen. unfold load_or_build, build. rewrite Hbuild.
  unfold sample_and_tidy. rewrite Hsample. simpl.
  destruct (tidy_output_returns L (team_parameters model)
              (raw_output (extract f)) Hnd) as [output Hout].
  { intros p Hp. destruct (Harr p Hp) as (arr & Hget & Hle).
    exists arr. rewrite dict_get_raw_output, Hget, np_unique_length. done. }
  exists output. split; [done|]. split_and!.
  - unfold tidy_output in Hout. rewrite (tidy_loop_keys _ _ _ _ Hout).
    unfold dict_keys, raw_output. rewrite map_map. done.
  - intros p arr Hp Hget. unfold tidy_output in Hout.
    destruct (proj1 (tidy_loop_Ok _ _ _ _ Hout p) Hp)
      as (v & df & Hv & Hdf & Hcols & Hrows).
    rewrite dict_get_raw_output, Hget in Hv. injection Hv as <-.
    exists df. split_and!; [done| |done].
    rewrite columns_of_array, relabel_range in Hcols.
    case_decide; [|done]. by injection Hcols as Hcols.
  - intros p Hp. unfold tidy_output in Hout.
    rewrite (proj2 (tidy_loop_Ok _ _ _ _ Hout p) Hp).
    apply dict_get_raw_output.
Qed.
End FitModelExtras.

(** X15. Once the cache holds a pickled model for a name, the template
    and the compiler no longer matter: with any other readable template
    and any other compiler, the call returns the same result and leaves
    the same world, so an edited template goes unnoticed. *)
Theorem fit_model_stale_cache {artifact fit kwargs num : Type}
    (open_read open_read2 : string -> result string)
    (stan_build stan_build2 : string -> model_data -> result artifact)
    (stan_sample : artifact -> model_data -> kwargs -> result fit)
    (extract : fit -> dict string (ndarray num)) (module_dir : string)
    (w : world) data team_map model kw (a : artifact) program program2 :
  fs w !! cache_file module_dir (name model) = Some (Pickled a) ->
  open_read (modelfile model) = Ok program ->
  open_read2 (modelfile model) = Ok program2 ->
  fit_model open_read2 stan_build2 stan_sample extract module_dir
    data team_map model true kw w
  = fit_model open_read stan_build stan_sample extract module_dir
      data team_map model true kw w.
Proof.
  intros Hwarm Hopen Hopen2.
  rewrite !(fit_model_warm_result _ _ _ _ _ _ _ _ _ _ a) by done.
  by rewrite Hopen, Hopen2.
Qed.

Lemma fit_model_stale_cache_witness :
  fit_model Sample.open_edited Sample.stan_build Sample.stan_sample
    Sample.extract Sample.dir [] [("A", 1); ("B", 2)] Sample.model true tt
    Sample.warm
  = fit_model Sample.open_read Sample.stan_build Sample.stan_sample
      Sample.extract Sample.dir [] [("A", 1); ("B", 2)] Sample.model true tt
      Sample.warm.
Proof.
  apply (fit_model_stale_cache Sample.open_read Sample.open_edited
           Sample.stan_build Sample.stan_build Sample.stan_sample
           Sample.extract Sample.dir Sample.warm [] [("A", 1); ("B", 2)]
           Sample.model tt "old parameters {}" "parameters {}"
           "new parameters {}").
  - reflexivity.
  - reflexivity.
  - reflexivity.
Defined.

Lemma fit_model_failure_after_build_witness :
  fit_model Sample.open_read Sample.stan_build Sample.failing_sample
    Sample.extract Sample.dir [] [("A", 1); ("B", 2)] Sample.model true tt
    Sample.cold
  = (Err (Raised "RuntimeError"),
     {| fs := <[Sample.pkl := Pickled "parameters {}"]> ∅;
        trace := [EvLoad Sample.pkl;
                  EvBuild "parameters {}"
                    (make_model_data [] [("A", 1); ("B", 2)]);
                  EvDump Sample.pkl] |}).
Proof.
  apply (fit_model_failure_after_build Sample.open_read Sample.stan_build
           Sample.failing_sample Sample.extract Sample.dir Sample.cold
           [] [("A", 1); ("B", 2)] Sample.model tt "parameters {}"
           "parameters {}" (Raised "RuntimeError")).
  - reflexivity.
  - reflexivity.
  - reflexivity.
  - reflexivity.
Defined.

Lemma fit_model_returns_witness :
  exists output,
    fst (fit_model Sample.open_read Sample.stan_build Sample.stan_sample
           Sample.extract Sample.dir [] (stan_map ["B"; "A"]) Sample.model
           false tt Sample.cold) = Ok output /\
    dict_keys output = dict_keys (Sample.extract "parameters {}") /\
    (forall p arr, p ∈ team_parameters Sample.model ->
       dict_get p (Sample.extract "parameters {}") = Some arr ->
       exists df, dict_get p output = Some (VFrame df) /\
                  columns df
                  = map CStr (take (ncols_of arr) (np_unique ["B"; "A"])) /\
                  df_rows df = df_rows (pd_DataFrame (VArray arr))) /\
    (forall p, p ∉ team_parameters Sample.model ->
       dict_get p output
       = VArray <$> dict_get p (Sample.extract "parameters {}")).
Proof.
  apply (fit_model_returns Sample.open_read Sample.stan_build
           Sample.stan_sample Sample.extract Sample.dir Sample.cold []
           ["B"; "A"] Sample.model tt "parameters {}" "parameters {}"
           "parameters {}").
  - reflexivity.
  - reflexivity.
  - reflexivity.
  - repeat constructor. apply not_elem_of_nil.
  - intros p Hp. apply list_elem_of_singleton in Hp. subst p.
    exists (Arr2 2 [[1; 2]; [3; 4]]). split; [reflexivity|].
    vm_compute. lia.
Defined.

(** ** Paths *)

Lemma string_length_app (s t : string) :
  String.length (s +:+ t) = (String.length s + String.length t)%nat.
Proof. induction s as [|c s IH]; simpl; [done|]. by rewrite IH. Qed.

Lemma string_app_inj_r (s1 s2 t : string) : s1 +:+ t = s2 +:+ t -> s1 = s2.
Proof.
  revert s2. induction s1 as [|c1 s1 IH]; intros [|c2 s2]; simpl; intros Heq.
  - done.
  - apply (f_equal String.length) in Heq. simpl in Heq.
    rewrite !string_length_app in Heq. simpl in Heq. lia.
  - apply (f_equal String.length) in Heq. simpl in Heq.
    rewrite !string_length_app in Heq. simpl in Heq. lia.
  - injection Heq as -> Heq. f_equal. by apply IH.
Qed.

Lemma cache_file_text_inj module_dir name1 name2 :
  cache_file module_dir name1 = cache_file module_dir name2 -> name1 = name2.
Proof.
  unfold cache_file, os_path_join. simpl.
  destruct (bool_decide _ || _); intros Heq.
  - apply (inj (String.app module_dir)) in Heq.
    injection Heq as Heq.
    change (name1 +:+ ".pkl" = name2 +:+ ".pkl") in Heq.
    by apply string_app_inj_r in Heq.
  - apply (inj (String.app module_dir)) in Heq.
    injection Heq as Heq.
    change (name1 +:+ ".pkl" = name2 +:+ ".pkl") in Heq.
    by apply string_app_inj_r in Heq.
Qed.

(** X18. Two different model names give two different cache paths, as
    texts.  (Two different texts can still name one file, as with the
    names m and ./m; nothing is said about that.) *)
Theorem cache_file_distinct module_dir name1 name2 :
  name1 <> name2 ->
  cache_file module_dir name1 <> cache_file module_dir name2.
Proof. intros Hne Heq. by apply Hne, (cache_file_text_inj module_dir). Qed.

Lemma cache_file_distinct_witness :
  cache_file Sample.dir "karlis-ntzoufras" <> cache_file Sample.dir "dixon-coles".
Proof.
  apply (cache_file_distinct Sample.dir "karlis-ntzoufras" "dixon-coles").
  discriminate.
Defined.

(** ** [plot_output] *)

Section PlotFacts.
Context {num figure : Type}.
Variable plot_parameter : value num -> string -> result figure.
Variable plot_team_parameter : value num -> string -> result figure.
Variable real_dir : string.

Local Abbreviation plot_output' :=
  (plot_output plot_parameter plot_team_parameter real_dir).
Local Abbreviation plot_loop' := (plot_loop real_dir).
Local Abbreviation figure_path' := (figure_path real_dir).
Local Abbreviation saved_as' := (saved_as real_dir).

Lemma figure_path_inj model_name p1 p2 :
  figure_path' model_name p1 = figure_path' model_name p2 -> p1 = p2.
Proof.
  unfold figure_path. intros Heq.
  apply (inj (String.app real_dir)) in Heq.
  apply (inj (String.app "/../figures/")) in Heq.
  apply (inj (String.app model_name)) in Heq.
  apply (inj (String.app "-")) in Heq.
  by apply string_app_inj_r in Heq.
Qed.

Lemma plot_loop_Ok (plot : value num -> string -> result figure) model
    output params saved saved' :
  plot_loop' plot model output params saved = (Ok tt, saved') <->
  exists figs, drawn plot output params figs /\
               saved' = saved ++ saved_as' model params figs.
Proof.
  revert saved. induction params as [|p params IH]; intros saved; simpl.
  - split.
    + intros [= <-]. exists []. split; [constructor|by rewrite app_nil_r].
    + intros (figs & ->%Forall2_nil_inv_l & ->). by rewrite app_nil_r.
  - destruct (dict_get p output) as [v|] eqn:Hv.
    + destruct (plot v p) as [fig|e] eqn:Hfig.
      * rewrite IH. split.
        -- intros (figs & Hd & ->). exists (fig :: figs). split.
           ++ constructor; [eauto|done].
           ++ by rewrite <-app_assoc.
        -- intros (figs & Hd & ->).
           apply Forall2_cons_inv_l in Hd
             as (fig' & figs' & (v' & Hv' & Hf') & Hd & ->).
           assert (fig' = fig) as -> by congruence.
           exists figs'. split; [done|]. by rewrite <-app_assoc.
      * split; [done|]. intros (figs & Hd & _).
        apply Forall2_cons_inv_l in Hd
          as (fig' & figs' & (v' & Hv' & Hf') & _).
        congruence.
    + split; [done|]. intros (figs & Hd & _).
      apply Forall2_cons_inv_l in Hd
        as (fig' & figs' & (v' & Hv' & Hf') & _).
      congruence.
Qed.

Lemma plot_loop_missing (plot : value num -> string -> result figure) model
    output pre param post saved figs :
  drawn plot output pre figs ->
  dict_get param output = None ->
  plot_loop' plot model output (pre ++ param :: post) saved
  = (Err KeyError, saved ++ saved_as' model pre figs).
Proof.
  intros Hd Hnone. revert saved.
  induction Hd as [|p fig pre figs (v & Hv & Hfig) Hd IH]; intros saved; simpl.
  - by rewrite Hnone, app_nil_r.
  - rewrite Hv, Hfig, IH. by rewrite <-app_assoc.
Qed.

Lemma saved_as_paths model params (figs : list figure) :
  length figs = length params ->
  map fst (saved_as' model params figs)
  = map (figure_path' (name model)) params.
Proof.
  intros Hlen. unfold saved_as. apply fst_zip. rewrite length_map. lia.
Qed.

(** X19. When [plot_output] returns it has saved exactly one figure per
    declared parameter, the scalar parameters first and then the team
    parameters, each at the path made of the model's name and the
    parameter's name; when the declared names are distinct the paths are
    distinct, so no figure overwrites another. *)
Theorem plot_output_saves model output saved saved' :
  plot_output' model output saved = (Ok tt, saved') ->
  exists new,
    saved' = saved ++ new /\
    map fst new = map (figure_path' (name model))
                    (parameters model ++ team_parameters model) /\
    (NoDup (parameters model ++ team_parameters model) ->
     NoDup (map fst new)).
Proof.
  unfold plot_output.
  destruct (plot_loop _ plot_parameter _ _ _ _) as [[[]|e] saved1] eqn:H1;
    [|done].
  intros H2.
  apply plot_loop_Ok in H1 as (figs1 & Hd1 & ->).
  apply plot_loop_Ok in H2 as (figs2 & Hd2 & ->).
  exists (saved_as' model (parameters model) figs1
          ++ saved_as' model (team_parameters model) figs2).
  assert (map fst (saved_as' model (parameters model) figs1
                   ++ saved_as' model (team_parameters model) figs2)
          = map (figure_path' (name model))
              (parameters model ++ team_parameters model)) as Hpaths.
  { rewrite !map_app, !saved_as_paths; [done|..];
      symmetry; by eapply Forall2_length. }
  split_and!; [by rewrite app_assoc|done|].
  intros Hnd. rewrite Hpaths. apply NoDup_fmap_2; [|done].
  intros p1 p2. apply figure_path_inj.
Qed.

(** X20. When a declared scalar parameter is not in the output,
    [plot_output] raises [KeyError] and the figures of the parameters
    declared before it are already saved: the failure leaves a partial
    set of figures. *)
Theorem plot_output_missing_parameter model output saved pre param post figs :
  parameters model = pre ++ param :: post ->
  drawn plot_parameter output pre figs ->
  dict_get param output = None ->
  plot_output' model output saved
  = (Err KeyError, saved ++ saved_as' model pre figs).
Proof.
  intros Hparams Hd Hnone. unfold plot_output.
  by rewrite Hparams, (plot_loop_missing _ _ _ _ _ _ _ figs).
Qed.
End PlotFacts.

Lemma plot_output_saves_witness :
  exists new,
    [(Sample.dir +:+ "/../figures/karlis-ntzoufras-home_advantage.png",
      "histogram of home_advantage");
     (Sample.dir +:+ "/../figures/karlis-ntzoufras-attack.png",
      "intervals of attack")]
    = [] ++ new /\
    map fst new = map (figure_path Sample.dir (name Sample.model))
                    (parameters Sample.model ++ team_parameters Sample.model) /\
    (NoDup (parameters Sample.model ++ team_parameters Sample.model) ->
     NoDup (map fst new)).
Proof.
  apply (plot_output_saves Sample.plot_parameter Sample.plot_team_parameter
           Sample.dir Sample.model Sample.extracted []).
  reflexivity.
Defined.

Lemma plot_output_missing_parameter_witness :
  plot_output Sample.plot_parameter Sample.plot_team_parameter Sample.dir
    Sample.with_rho Sample.extracted []
  = (Err KeyError,
     [] ++ saved_as Sample.dir Sample.with_rho ["home_advantage"]
             ["histogram of home_advantage"]).
Proof.
  apply (plot_output_missing_parameter Sample.plot_parameter
           Sample.plot_team_parameter Sample.dir Sample.with_rho
           Sample.extracted [] ["home_advantage"] "rho" []
           ["histogram of home_advantage"]).
  - reflexivity.
  - constructor; [|constructor].
    exists (VArray (Arr1 [5; 6])). split; reflexivity.
  - reflexivity.
Defined.
